(** * Realtime chat synchronisation: the client-side handlers of
      [features/chat/ChatPage.tsx] and of the main layout's notification
      router, embedded as pure state transformers.

    React state ([useState]) and refs ([useRef]) become fields of a record
    that every handler takes and returns; queued [setState] updaters are
    applied in the order the source queues them.  Side effects that leave the
    component (mutations, toasts, sounds, OS notifications) are collected in
    an effect list.  Browser timers are an explicit queue with deadlines. *)

From Stdlib Require Import ZArith String Ascii List Sorting.Sorted Permutation.
From stdpp Require Import gmap strings pretty list fin_maps.

Open Scope string_scope.
Open Scope list_scope.
Open Scope Z_scope.

(** ** JavaScript values used by the handlers *)

Module JS.

(** [ToBoolean] on numbers the handlers test ([0] is falsy) and on
    strings (the empty string is falsy). *)
Definition truthy_num (z : Z) : bool := negb (z =? 0).
Definition truthy_str (s : string) : bool := negb (String.eqb s "").

(** [x || d] on an optional number: [undefined], [null] and [0] all give
    [d]. *)
Definition num_or (x : option Z) (d : Z) : Z :=
  match x with
  | Some z => if truthy_num z then z else d
  | None => d
  end.

(** [s || d] on strings. *)
Definition str_or (s d : string) : string :=
  if truthy_str s then s else d.

(** Keyed insertion as [Map.prototype.set] and property assignment do it:
    a key keeps the position of its first insertion and takes the value of
    its last. *)
Fixpoint assoc_set {K V} `{EqDecision K} (k : K) (v : V)
    (entries : list (K * V)) : list (K * V) :=
  match entries with
  | [] => [(k, v)]
  | (k', v') :: rest =>
      if decide (k' = k) then (k', v) :: rest
      else (k', v') :: assoc_set k v rest
  end.

(** [new Map(entries)] *)
Definition Map_of {V} (entries : list (Z * V)) : list (Z * V) :=
  foldl (fun acc kv => assoc_set kv.1 kv.2 acc) [] entries.

Definition Map_values {V} (m : list (Z * V)) : list V := map snd m.

(** [Array.prototype.sort(cmp)] is a stable sort; with a consistent
    comparator its result does not depend on the algorithm, so a stable
    insertion sort stands for it.  [cmp a b <= 0] keeps [a] in front. *)
Fixpoint sort_insert {A} (cmp : A -> A -> Z) (x : A) (l : list A) : list A :=
  match l with
  | [] => [x]
  | y :: l' =>
      if decide (cmp x y <= 0) then x :: y :: l'
      else y :: sort_insert cmp x l'
  end.

Definition Array_sort {A} (cmp : A -> A -> Z) (l : list A) : list A :=
  foldr (sort_insert cmp) [] l.

(** Decimal digit strings, as [\d+] matches them. *)
Definition digit (c : ascii) : option Z :=
  let n := Z.of_nat (nat_of_ascii c) in
  if decide (48 <= n <= 57) then Some (n - 48) else None.

Fixpoint digits_val (s : string) (acc : Z) : option Z :=
  match s with
  | EmptyString => Some acc
  | String c s' =>
      match digit c with
      | Some d => digits_val s' (10 * acc + d)
      | None => None
      end
  end.

Definition decimal (s : string) : option Z :=
  match s with
  | EmptyString => None
  | _ => digits_val s 0
  end.







End JS.

(** ** Data model ([types], as the handlers read it) *)

Record Reaction := {
  r_user_id : Z;
  r_emoji : string;
  r_username : string;
  r_avatar_url : option string
}.

Record Message := {
  m_id : Z;
  m_channel_id : Z;
  m_user_id : Z;
  m_content : string;
  m_parent_id : option Z;
  m_reply_count : option Z;
  m_reactions : option (list Reaction)
}.

Record Channel := {
  c_id : Z;
  c_is_direct : bool;
  c_unread_count : Z;
  c_last_read_message_id : option Z;
  c_others_read_id : option Z;
  c_online_count : Z;
  (** [mute_until]: the instant (epoch milliseconds) the stored ISO string
      denotes; [None] when the field is null, absent or empty. *)
  c_mute_until : option Z
}.

Record User := {
  u_id : Z;
  u_is_online : bool;
  u_last_seen : option Z
}.

#[global] Instance Reaction_eq_dec : EqDecision Reaction.
Proof. solve_decision. Defined.
#[global] Instance Message_eq_dec : EqDecision Message.
Proof. solve_decision. Defined.
#[global] Instance Channel_eq_dec : EqDecision Channel.
Proof. solve_decision. Defined.
#[global] Instance User_eq_dec : EqDecision User.
Proof. solve_decision. Defined.

(** ** Channel message store *)

Module MessageStore.

Definition by_id (a b : Message) : Z := m_id a - m_id b.

(** The history effect's updater, [setMessages(prev => ...)]:
    flatten the pages, put them in front of the current state, keep one
    message per id through a [Map], sort by id. *)
Definition mergeHistory (pages : list (list Message)) (prev : list Message)
  : list Message :=
  let allHistory := concat pages in
  let combined := allHistory ++ prev in
  let unique :=
    JS.Array_sort by_id
      (JS.Map_values (JS.Map_of (map (fun m => (m_id m, m)) combined))) in
  unique.

(** The spec's wording, [dedupe-by-id(sort-by-id(existing ∪ incoming))].
    The union is taken history first; of several messages with one id the
    later one stays. *)
Definition sort_by_id (l : list Message) : list Message :=
  JS.Array_sort by_id l.

Fixpoint dedupe_by_id (l : list Message) : list Message :=
  match l with
  | [] => []
  | x :: rest =>
      match rest with
      | y :: _ => if decide (m_id x = m_id y) then dedupe_by_id rest
                  else x :: dedupe_by_id rest
      | [] => [x]
      end
  end.

Definition spec_merge (incoming existing : list Message) : list Message :=
  dedupe_by_id (sort_by_id (incoming ++ existing)).

(** [getNextPageParam] of the infinite query; [None] is [undefined]. *)
Definition getNextPageParam (lastPage : list Message)
    (allPages : list (list Message)) : option nat :=
  if decide (length lastPage = 50%nat) then Some (length allPages) else None.

End MessageStore.

(** ** Reaction aggregator *)

Module Reactions.

(** [m.reactions || []] *)
Definition reactions_of (m : Message) : list Reaction :=
  default [] (m_reactions m).

Definition same_pair (user_id : Z) (emoji : string) (r : Reaction) : bool :=
  bool_decide (r_user_id r = user_id) && bool_decide (r_emoji r = emoji).

Definition with_reactions (m : Message) (rs : list Reaction) : Message :=
  {| m_id := m_id m; m_channel_id := m_channel_id m; m_user_id := m_user_id m;
     m_content := m_content m; m_parent_id := m_parent_id m;
     m_reply_count := m_reply_count m; m_reactions := Some rs |}.

(** The [reaction_added] updater on one message. *)
Definition add_to (message_id : Z) (reaction : Reaction) (m : Message) : Message :=
  if decide (m_id m = message_id) then
    let reactions := reactions_of m in
    if existsb (same_pair (r_user_id reaction) (r_emoji reaction)) reactions
    then m
    else with_reactions m (reactions ++ [reaction])
  else m.

Definition reaction_added (message_id : Z) (reaction : Reaction)
    (prev : list Message) : list Message :=
  map (add_to message_id reaction) prev.

(** The [reaction_removed] updater on one message. *)
Definition remove_from (message_id user_id : Z) (emoji : string) (m : Message)
  : Message :=
  if decide (m_id m = message_id) then
    with_reactions m
      (List.filter (fun r => negb (same_pair user_id emoji r)) (reactions_of m))
  else m.

Definition reaction_removed (message_id user_id : Z) (emoji : string)
    (prev : list Message) : list Message :=
  map (remove_from message_id user_id emoji) prev.







End Reactions.

(** ** The chat page component *)

(** An inbound frame as [onMessage] reads it: one untagged object whose
    [type] property selects which of the other properties are looked at.
    In the [new_message] branch the frame itself is the message. *)
Record WebSocketMessage := {
  ws_type : option string;
  ws_user_id : Z;
  ws_full_name : string;
  ws_username : string;
  ws_is_typing : bool;
  ws_channel_id : Z;
  ws_last_read_id : Z;
  ws_status : string;
  ws_message_id : Z;
  ws_reaction : Reaction;
  ws_emoji : string;
  ws_online_count : Z;
  ws_id : Z;
  ws_content : string;
  ws_parent_id : option Z;
  ws_reply_count : option Z;
  ws_reactions : option (list Reaction)
}.

(** [const message: Message = data] *)
Definition as_message (data : WebSocketMessage) : Message :=
  {| m_id := ws_id data; m_channel_id := ws_channel_id data;
     m_user_id := ws_user_id data; m_content := ws_content data;
     m_parent_id := ws_parent_id data; m_reply_count := ws_reply_count data;
     m_reactions := ws_reactions data |}.

Record TypingEntry := { name : string; timestamp : Z }.

(** A pending [setTimeout]: when it is due and the [user_id] its callback
    closes over. *)
Record Timer := { deadline : Z; timer_user : Z }.

#[global] Instance TypingEntry_eq_dec : EqDecision TypingEntry.
Proof. solve_decision. Defined.
#[global] Instance Timer_eq_dec : EqDecision Timer.
Proof. solve_decision. Defined.

Record ChatState := {
  channelId : option string;                 (* useParams() *)
  prevChannelIdRef : option string;
  messages : list Message;
  typingUsers : gmap Z TypingEntry;
  typingTimeoutRef : gmap Z positive;
  (** the browser's pending timeouts of this component, oldest first, and
      the next handle [setTimeout] returns (handles are positive) *)
  timers : list (positive * Timer);
  next_timer : positive;
  initialLastReadId : option Z;
  activeThread : option Message;
  showParticipants : bool;
  isInitialLoadRef : bool;
  (** query data under [['channel', id]] and [['channel_members', id]] *)
  channel_cache : gmap string Channel;
  members_cache : gmap string (list User)
}.

Inductive Effect :=
  | MarkRead (channel : Z)        (* markReadMutation.mutate(...) *)
  | ScrollToBottom.               (* the 10 ms scroll timeout *)

Definition initial (cid : option string) : ChatState :=
  {| channelId := cid; prevChannelIdRef := cid; messages := [];
     typingUsers := ∅; typingTimeoutRef := ∅; timers := []; next_timer := 1%positive;
     initialLastReadId := None; activeThread := None; showParticipants := true;
     isInitialLoadRef := true; channel_cache := ∅; members_cache := ∅ |}.

Definition setMessages (f : list Message -> list Message) (st : ChatState)
  : ChatState :=
  {| channelId := channelId st; prevChannelIdRef := prevChannelIdRef st;
     messages := f (messages st);
     typingUsers := typingUsers st; typingTimeoutRef := typingTimeoutRef st;
     timers := timers st; next_timer := next_timer st;
     initialLastReadId := initialLastReadId st; activeThread := activeThread st;
     showParticipants := showParticipants st;
     isInitialLoadRef := isInitialLoadRef st;
     channel_cache := channel_cache st; members_cache := members_cache st |}.

Definition setTypingUsers (f : gmap Z TypingEntry -> gmap Z TypingEntry)
    (st : ChatState) : ChatState :=
  {| channelId := channelId st; prevChannelIdRef := prevChannelIdRef st;
     messages := messages st;
     typingUsers := f (typingUsers st); typingTimeoutRef := typingTimeoutRef st;
     timers := timers st; next_timer := next_timer st;
     initialLastReadId := initialLastReadId st; activeThread := activeThread st;
     showParticipants := showParticipants st;
     isInitialLoadRef := isInitialLoadRef st;
     channel_cache := channel_cache st; members_cache := members_cache st |}.

Definition set_timers (ref : gmap Z positive) (ts : list (positive * Timer))
    (next : positive) (st : ChatState) : ChatState :=
  {| channelId := channelId st; prevChannelIdRef := prevChannelIdRef st;
     messages := messages st;
     typingUsers := typingUsers st; typingTimeoutRef := ref;
     timers := ts; next_timer := next;
     initialLastReadId := initialLastReadId st; activeThread := activeThread st;
     showParticipants := showParticipants st;
     isInitialLoadRef := isInitialLoadRef st;
     channel_cache := channel_cache st; members_cache := members_cache st |}.

Definition set_channel_cache (f : gmap string Channel -> gmap string Channel)
    (st : ChatState) : ChatState :=
  {| channelId := channelId st; prevChannelIdRef := prevChannelIdRef st;
     messages := messages st;
     typingUsers := typingUsers st; typingTimeoutRef := typingTimeoutRef st;
     timers := timers st; next_timer := next_timer st;
     initialLastReadId := initialLastReadId st; activeThread := activeThread st;
     showParticipants := showParticipants st;
     isInitialLoadRef := isInitialLoadRef st;
     channel_cache := f (channel_cache st); members_cache := members_cache st |}.

Definition set_members_cache
    (f : gmap string (list User) -> gmap string (list User))
    (st : ChatState) : ChatState :=
  {| channelId := channelId st; prevChannelIdRef := prevChannelIdRef st;
     messages := messages st;
     typingUsers := typingUsers st; typingTimeoutRef := typingTimeoutRef st;
     timers := timers st; next_timer := next_timer st;
     initialLastReadId := initialLastReadId st; activeThread := activeThread st;
     showParticipants := showParticipants st;
     isInitialLoadRef := isInitialLoadRef st;
     channel_cache := channel_cache st; members_cache := f (members_cache st) |}.

(** [clearTimeout(h)]: a handle that is no longer pending is ignored. *)
Definition clearTimeout (h : positive) (ts : list (positive * Timer))
  : list (positive * Timer) :=
  filter (fun t => t.1 <> h) ts.

Definition with_others_read_id (c : Channel) (v : Z) : Channel :=
  {| c_id := c_id c; c_is_direct := c_is_direct c;
     c_unread_count := c_unread_count c;
     c_last_read_message_id := c_last_read_message_id c;
     c_others_read_id := Some v; c_online_count := c_online_count c;
     c_mute_until := c_mute_until c |}.

Definition with_online_count (c : Channel) (v : Z) : Channel :=
  {| c_id := c_id c; c_is_direct := c_is_direct c;
     c_unread_count := c_unread_count c;
     c_last_read_message_id := c_last_read_message_id c;
     c_others_read_id := c_others_read_id c; c_online_count := v;
     c_mute_until := c_mute_until c |}.

Definition with_reply_count (m : Message) (v : Z) : Message :=
  {| m_id := m_id m; m_channel_id := m_channel_id m; m_user_id := m_user_id m;
     m_content := m_content m; m_parent_id := m_parent_id m;
     m_reply_count := Some v; m_reactions := m_reactions m |}.

Section ChatPage.

(** [Number(s)] on a route parameter: [Some z] when the result is the
    integer [z], [None] when it is [NaN] or not an integer. *)
Variable Number_ : string -> option Z.
(** [user?.id] of the auth store. *)
Variable self : option Z.

(** *** [typing] *)

Definition cancel_for (user_id : Z) (st : ChatState) : list (positive * Timer) :=
  match typingTimeoutRef st !! user_id with
  | Some h => clearTimeout h (timers st)
  | None => timers st
  end.

(** The updater passed to [setTypingUsers], with the timer calls it makes. *)
Definition typing_updater (now : Z) (data : WebSocketMessage) (st : ChatState)
  : ChatState :=
  let user_id := ws_user_id data in
  if ws_is_typing data then
    let h := next_timer st in
    setTypingUsers
      (insert user_id
         {| name := JS.str_or (ws_full_name data) (ws_username data);
            timestamp := now |})
      (set_timers (<[user_id := h]> (typingTimeoutRef st))
         (cancel_for user_id st
            ++ [(h, {| deadline := now + 5000; timer_user := user_id |})])
         (Pos.succ h) st)
  else
    setTypingUsers (delete user_id)
      (set_timers (typingTimeoutRef st) (cancel_for user_id st)
         (next_timer st) st).

(** The callback of an expiry timer. *)
Definition fire (t : positive * Timer) (st : ChatState) : ChatState :=
  setTypingUsers (delete (timer_user t.2)) st.

(** The event loop reaching time [now]: every timeout that is due runs,
    oldest first, and leaves the queue. *)
Definition run_due (now : Z) (st : ChatState) : ChatState :=
  let due := filter (fun t => deadline t.2 <= now) (timers st) in
  let pending := filter (fun t => ~ deadline t.2 <= now) (timers st) in
  foldl (fun s t => fire t s)
    (set_timers (typingTimeoutRef st) pending (next_timer st) st) due.

(** *** [read_receipt] *)

Definition viewing (st : ChatState) (channel : Z) : bool :=
  match channelId st with
  | Some cid => JS.truthy_str cid && bool_decide (Number_ cid = Some channel)
  | None => false
  end.

Definition read_receipt (data : WebSocketMessage) (st : ChatState) : ChatState :=
  match channelId st with
  | Some cid =>
      if viewing st (ws_channel_id data) then
        set_channel_cache
          (alter (fun old =>
                    let newId := Z.max (JS.num_or (c_others_read_id old) 0)
                                       (ws_last_read_id data) in
                    with_others_read_id old newId) cid) st
      else st
  | None => st
  end.

(** *** [user_presence], [presence] *)

Definition presence_of (now : Z) (data : WebSocketMessage) (m : User) : User :=
  if decide (u_id m = ws_user_id data) then
    {| u_id := u_id m;
       u_is_online := bool_decide (ws_status data = "online");
       u_last_seen := if decide (ws_status data = "offline") then Some now
                      else u_last_seen m |}
  else m.

Definition user_presence (now : Z) (data : WebSocketMessage) (st : ChatState)
  : ChatState :=
  set_members_cache (fmap (map (presence_of now data))) st.

Definition presence (data : WebSocketMessage) (st : ChatState) : ChatState :=
  match channelId st with
  | Some cid =>
      set_channel_cache
        (alter (fun old => with_online_count old (ws_online_count data)) cid) st
  | None => st
  end.

(** *** [message_deleted], [new_message] *)

Definition message_deleted (data : WebSocketMessage) (st : ChatState) : ChatState :=
  setMessages (filter (fun m => m_id m <> ws_message_id data)) st.

Definition bump_reply_count (parent : Z) (m : Message) : Message :=
  if decide (m_id m = parent) then
    with_reply_count m (JS.num_or (m_reply_count m) 0 + 1)
  else m.

Definition append_new (message : Message) (prev : list Message) : list Message :=
  if existsb (fun m => bool_decide (m_id m = m_id message)) prev then prev
  else prev ++ [message].

Definition new_message (data : WebSocketMessage) (st : ChatState)
  : ChatState * list Effect :=
  let message := as_message data in
  let st1 :=
    match m_parent_id message with
    | Some p =>
        if JS.truthy_num p then setMessages (map (bump_reply_count p)) st
        else st
    | None => st
    end in
  let st2 := setMessages (append_new message) st1 in
  let isFromAlternativeSource :=
    negb (bool_decide (Some (m_user_id message) = self)) in
  let mark :=
    if viewing st (m_channel_id message) && isFromAlternativeSource
    then [MarkRead (m_channel_id message)] else [] in
  (st2, mark ++ [ScrollToBottom]).

(** *** The dispatcher *)

(** [!data.type]: the property is absent or the empty string. *)
Definition no_type (data : WebSocketMessage) : bool :=
  match ws_type data with
  | Some ty => negb (JS.truthy_str ty)
  | None => true
  end.

Definition is_type (data : WebSocketMessage) (ty : string) : bool :=
  bool_decide (ws_type data = Some ty).

Definition onMessage (now : Z) (st : ChatState) (data : WebSocketMessage)
  : ChatState * list Effect :=
  if is_type data "typing" then
    if decide (Some (ws_user_id data) = self) then (st, [])
    else (typing_updater now data st, [])
  else if is_type data "read_receipt" then (read_receipt data st, [])
  else if is_type data "user_presence" then (user_presence now data st, [])
  else if is_type data "reaction_added" then
    (setMessages
       (Reactions.reaction_added (ws_message_id data) (ws_reaction data)) st, [])
  else if is_type data "reaction_removed" then
    (setMessages
       (Reactions.reaction_removed (ws_message_id data) (ws_user_id data)
          (ws_emoji data)) st, [])
  else if is_type data "presence" then (presence data st, [])
  else if is_type data "message_deleted" then (message_deleted data st, [])
  else if is_type data "new_message" || no_type data then new_message data st
  else (st, []).

(** *** Effects that do not come from the socket *)

(** The layout effect that runs when the route parameter changes. *)
Definition resetOnChannelChange (st : ChatState) : ChatState :=
  if decide (prevChannelIdRef st <> channelId st) then
    {| channelId := channelId st; prevChannelIdRef := channelId st;
       messages := [];
       typingUsers := typingUsers st; typingTimeoutRef := typingTimeoutRef st;
       timers := timers st; next_timer := next_timer st;
       initialLastReadId := None; activeThread := None;
       showParticipants := true; isInitialLoadRef := true;
       channel_cache := channel_cache st; members_cache := members_cache st |}
  else st.

(** The router hands the component a new [channelId]. *)
Definition switchChannel (cid : option string) (st : ChatState) : ChatState :=
  resetOnChannelChange
    {| channelId := cid; prevChannelIdRef := prevChannelIdRef st;
       messages := messages st;
       typingUsers := typingUsers st; typingTimeoutRef := typingTimeoutRef st;
       timers := timers st; next_timer := next_timer st;
       initialLastReadId := initialLastReadId st;
       activeThread := activeThread st;
       showParticipants := showParticipants st;
       isInitialLoadRef := isInitialLoadRef st;
       channel_cache := channel_cache st; members_cache := members_cache st |}.

(** The history effect, once [historyData.pages] is there. *)
Definition historyLoaded (pages : list (list Message)) (st : ChatState)
  : ChatState :=
  setMessages (MessageStore.mergeHistory pages) st.

(** [hasNextPage] as the query library derives it, and the scroll
    handler's decision to call [fetchNextPage]. *)
Definition hasNextPage (pages : list (list Message)) : bool :=
  match last pages with
  | Some lastPage => bool_decide (is_Some (MessageStore.getNextPageParam lastPage pages))
  | None => false
  end.

Definition handleScroll (scrollTop : Z) (pages : list (list Message))
    (isFetchingNextPage : bool) : bool :=
  bool_decide (scrollTop < 50) && hasNextPage pages && negb isFetchingNextPage.

(** *** Runs of the component *)

Inductive Input :=
  | Frame (now : Z) (data : WebSocketMessage)
  | Tick (now : Z)
  | Switch (cid : option string)
  | History (pages : list (list Message)).

Definition step (st : ChatState) (i : Input) : ChatState :=
  match i with
  | Frame now data => (onMessage now st data).1
  | Tick now => run_due now st
  | Switch cid => switchChannel cid st
  | History pages => historyLoaded pages st
  end.

Definition run (st : ChatState) (inputs : list Input) : ChatState :=
  foldl step st inputs.

End ChatPage.

(** ** The notification router of the main layout *)

Module Layout.

Record MessageInfo := {
  document_id : option Z;
  sender_name : option string;
  content : option string
}.

(** The payload of a [message_received] event.  The handler's cast names
    [channel_id], [is_mentioned] and [message]; [sender_id] stands for the
    author the frame may carry, which the handler never reads. *)
Record MessageReceived := {
  channel_id : Z;
  is_mentioned : option bool;
  message : option MessageInfo;
  sender_id : option Z
}.

Record AuthUser := {
  au_id : Z;
  notify_browser : option bool;
  notify_sound : option bool
}.

Inductive Effect :=
  | AddUnread (channel : Z)
  | InvalidateChannels
  | PlaySound
  | AddDocUnread (document channel : Z)
  | Toast (title body : string) (duration : Z) (navigate_to : Z)
  | SystemNotification (title body : string) (tag_channel : Z).

#[global] Instance Effect_eq_dec : EqDecision Effect.
Proof. solve_decision. Defined.

(** [location.pathname.match(/\/chat\/(\d+)/)?.[1]]: the digits after the
    leftmost ["/chat/"] that is followed by a digit. *)
Fixpoint drop_prefix (p s : string) : option string :=
  match p, s with
  | EmptyString, _ => Some s
  | String a p', String b s' =>
      if decide (a = b) then drop_prefix p' s' else None
  | String _ _, EmptyString => None
  end.

Fixpoint take_digits (s : string) : string :=
  match s with
  | String c s' =>
      if decide (is_Some (JS.digit c)) then String c (take_digits s')
      else EmptyString
  | EmptyString => EmptyString
  end.

Definition chat_here (s : string) : option string :=
  match drop_prefix "/chat/" s with
  | Some rest =>
      match take_digits rest with
      | EmptyString => None
      | ds => Some ds
      end
  | None => None
  end.

Fixpoint match_chat (s : string) : option string :=
  match chat_here s with
  | Some ds => Some ds
  | None =>
      match s with
      | String _ s' => match_chat s'
      | EmptyString => None
      end
  end.

(** [currentChannelId ? Number(currentChannelId) : null]; on a digit
    string [Number] is the decimal value (exact below 2^53). *)
Definition currentChannelIdNum (pathname : string) : option Z :=
  match match_chat pathname with
  | Some ds => JS.decimal ds
  | None => None
  end.

Definition isMuted (now : Z) (channel : option Channel) : bool :=
  match channel with
  | Some c =>
      match c_mute_until c with
      | Some until => bool_decide (now < until)
      | None => false
      end
  | None => false
  end.

Definition truthy_doc (m : option MessageInfo) : option Z :=
  match m with
  | Some info =>
      match document_id info with
      | Some d => if JS.truthy_num d then Some d else None
      | None => None
      end
  | None => None
  end.

Definition text_or (s : option string) (d : string) : string :=
  match s with
  | Some v => JS.str_or v d
  | None => d
  end.

Section Router.

(** [t('chat.mentioned_by', { name })] *)
Variable mentioned_by : string -> string.

Variable user : option AuthUser.
Variable channels : option (list Channel).
Variable pathname : string.
Variable now : Z.

Definition onMessageReceived (msgData : MessageReceived) : list Effect :=
  let channelId := channel_id msgData in
  let current := currentChannelIdNum pathname in
  let elsewhere :=
    match current with
    | Some n => negb (JS.truthy_num n) || bool_decide (n <> channelId)
    | None => true
    end in
  if elsewhere then
    let channel :=
      match channels with
      | Some cs => List.find (fun c => bool_decide (c_id c = channelId)) cs
      | None => None
      end in
    let muted := isMuted now channel in
    let sound :=
      if bool_decide ((user ≫= notify_sound) = Some true) && negb muted
      then [PlaySound] else [] in
    let shouldNotify :=
      negb (bool_decide ((user ≫= notify_browser) = Some false)) in
    let doc := truthy_doc (message msgData) in
    let isDocumentShare := bool_decide (is_Some doc) in
    let docUnread :=
      match doc with
      | Some d => [AddDocUnread d channelId]
      | None => []
      end in
    let notify :=
      if shouldNotify && negb isDocumentShare && negb muted then
        let senderName :=
          text_or (message msgData ≫= sender_name) "Someone" in
        let body :=
          text_or (message msgData ≫= content) "New message" in
        let isMentioned := bool_decide (is_mentioned msgData = Some true) in
        let title :=
          if isMentioned then mentioned_by senderName else senderName in
        (if isMentioned then [Toast title body 5000 channelId] else [])
          ++ [SystemNotification title body channelId]
      else [] in
    [AddUnread channelId; InvalidateChannels] ++ sound ++ docUnread ++ notify
  else [].

End Router.

End Layout.

(** ** Vocabulary of the properties *)

(** The event kinds [onMessage] names. *)
Definition known_types : list string :=
  [ "typing"; "read_receipt"; "user_presence"; "reaction_added";
    "reaction_removed"; "presence"; "message_deleted"; "new_message" ].

(** [old.others_read_id || 0] of the channel cached under [cid]. *)
Definition others_read (cid : string) (st : ChatState) : Z :=
  match channel_cache st !! cid with
  | Some c => JS.num_or (c_others_read_id c) 0
  | None => 0
  end.

(** The last message of a list that carries the id [k]. *)
Definition last_with_id (k : Z) (l : list Message) : option Message :=
  last (filter (fun m => m_id m = k) l).

(** Strictly ascending by id. *)
Definition ascending_ids (l : list Message) : Prop :=
  StronglySorted (fun a b => m_id a < m_id b) l.







(** [prev.some(m => m.id === k)] *)
Definition has_id (k : Z) (l : list Message) : bool :=
  existsb (fun m => bool_decide (m_id m = k)) l.

(** How many stored reactions carry the pair (user, emoji). *)
Definition count_pair (user_id : Z) (emoji : string) (rs : list Reaction) : nat :=
  length (List.filter (Reactions.same_pair user_id emoji) rs).

(** Every typing entry has its expiry timer pending, due 5000 ms after the
    entry's timestamp; handles are fresh and belong to one user, and every
    pending timer is the one its user's ref holds. *)
Record typing_inv (st : ChatState) : Prop := {
  inv_entry : forall u e, typingUsers st !! u = Some e ->
    exists h, typingTimeoutRef st !! u = Some h /\
      In (h, {| deadline := timestamp e + 5000; timer_user := u |}) (timers st);
  inv_timer_fresh : forall h t, In (h, t) (timers st) -> (h < next_timer st)%positive;
  inv_ref_fresh : forall u h, typingTimeoutRef st !! u = Some h ->
    (h < next_timer st)%positive;
  inv_ref_inj : forall u u' h, typingTimeoutRef st !! u = Some h ->
    typingTimeoutRef st !! u' = Some h -> u = u';
  inv_timer_ref : forall h t, In (h, t) (timers st) ->
    typingTimeoutRef st !! timer_user t = Some h
}.

(** Concrete frames, states and preferences used to run the handlers. *)
Module Examples.

Definition no_reaction : Reaction :=
  {| r_user_id := 0; r_emoji := ""; r_username := ""; r_avatar_url := None |}.

Definition frame (ty : option string) : WebSocketMessage :=
  {| ws_type := ty; ws_user_id := 0; ws_full_name := ""; ws_username := "";
     ws_is_typing := false; ws_channel_id := 0; ws_last_read_id := 0;
     ws_status := ""; ws_message_id := 0; ws_reaction := no_reaction;
     ws_emoji := ""; ws_online_count := 0; ws_id := 0; ws_content := "";
     ws_parent_id := None; ws_reply_count := None; ws_reactions := None |}.

Definition typing_frame (user_id : Z) (full_name : string) (is_typing : bool)
  : WebSocketMessage :=
  {| ws_type := Some "typing"; ws_user_id := user_id;
     ws_full_name := full_name; ws_username := "";
     ws_is_typing := is_typing; ws_channel_id := 0; ws_last_read_id := 0;
     ws_status := ""; ws_message_id := 0; ws_reaction := no_reaction;
     ws_emoji := ""; ws_online_count := 0; ws_id := 0; ws_content := "";
     ws_parent_id := None; ws_reply_count := None; ws_reactions := None |}.

Definition message_frame (ty : option string) (id channel user : Z)
    (parent : option Z) : WebSocketMessage :=
  {| ws_type := ty; ws_user_id := user; ws_full_name := ""; ws_username := "";
     ws_is_typing := false; ws_channel_id := channel; ws_last_read_id := 0;
     ws_status := ""; ws_message_id := 0; ws_reaction := no_reaction;
     ws_emoji := ""; ws_online_count := 0; ws_id := id; ws_content := "hello";
     ws_parent_id := parent; ws_reply_count := None; ws_reactions := Some [] |}.

Definition receipt_frame (channel user last_read : Z) : WebSocketMessage :=
  {| ws_type := Some "read_receipt"; ws_user_id := user; ws_full_name := "";
     ws_username := ""; ws_is_typing := false; ws_channel_id := channel;
     ws_last_read_id := last_read; ws_status := ""; ws_message_id := 0;
     ws_reaction := no_reaction; ws_emoji := ""; ws_online_count := 0;
     ws_id := 0; ws_content := ""; ws_parent_id := None;
     ws_reply_count := None; ws_reactions := None |}.

Definition msg (id : Z) (replies : option Z) (rs : option (list Reaction))
  : Message :=
  {| m_id := id; m_channel_id := 1; m_user_id := 3; m_content := "hi";
     m_parent_id := None; m_reply_count := replies; m_reactions := rs |}.

Definition thumbs (user_id : Z) : Reaction :=
  {| r_user_id := user_id; r_emoji := "+1"; r_username := "ann";
     r_avatar_url := None |}.

(** The route parameters of the examples are decimal numerals. *)
Definition Number_ : string -> option Z := JS.decimal.

Definition me : option Z := Some 1.

Definition chan (id : Z) (others_read : option Z) (mute_until : option Z)
  : Channel :=
  {| c_id := id; c_is_direct := true; c_unread_count := 0;
     c_last_read_message_id := None; c_others_read_id := others_read;
     c_online_count := 0; c_mute_until := mute_until |}.

(** Channel 1 is open, message 1 is loaded with no replies yet. *)
Definition open1 : ChatState :=
  {| channelId := Some "1"; prevChannelIdRef := Some "1";
     messages := [msg 1 (Some 0) (Some [])];
     typingUsers := ∅; typingTimeoutRef := ∅; timers := [];
     next_timer := 1%positive;
     initialLastReadId := None; activeThread := None;
     showParticipants := true; isInitialLoadRef := false;
     channel_cache := {[ "1" := chan 1 (Some 10) None ]};
     members_cache := ∅ |}.

(** The component mounted on channel 1, after the first history page and
    a typing signal of user 7 at time 1000. *)
Definition typing7 : ChatState :=
  run Number_ me (initial (Some "1"))
    [ History [[msg 1 (Some 0) (Some [])]];
      Frame 1000 (typing_frame 7 "Alice" true) ].

Definition prefs (browser sound : option bool) : option Layout.AuthUser :=
  Some {| Layout.au_id := 1; Layout.notify_browser := browser;
          Layout.notify_sound := sound |}.

Definition received (channel : Z) (mentioned : option bool) (doc : option Z)
    (sender : option Z) : Layout.MessageReceived :=
  {| Layout.channel_id := channel; Layout.is_mentioned := mentioned;
     Layout.message :=
       Some {| Layout.document_id := doc; Layout.sender_name := Some "Ann";
               Layout.content := Some "hi" |};
     Layout.sender_id := sender |}.

Definition mentioned_by (n : string) : string := String.append "Mention: " n.

End Examples.

(** The router's reading of "the user is looking at this channel": the
    path names a chat channel with this non-zero id. *)
Definition viewing_channel (pathname : string) (channel : Z) : bool :=
  match Layout.currentChannelIdNum pathname with
  | Some n => JS.truthy_num n && bool_decide (n = channel)
  | None => false
  end.

(** [mute_until > now] for the channel of the list with this id. *)
Definition muted_now (now : Z) (channels : option (list Channel)) (channel : Z)
  : bool :=
  Layout.isMuted now
    (match channels with
     | Some cs => List.find (fun c => bool_decide (c_id c = channel)) cs
     | None => None
     end).

Definition is_toast (e : Layout.Effect) : bool :=
  match e with Layout.Toast _ _ _ _ => true | _ => false end.

Definition is_system_notification (e : Layout.Effect) : bool :=
  match e with Layout.SystemNotification _ _ _ => true | _ => false end.

Definition is_add_unread (e : Layout.Effect) : bool :=
  match e with Layout.AddUnread _ => true | _ => false end.

(** ** The rest of the chat page *)

(** *** Message list rendering *)

(** [showUnreadSeparator] of the message list's [map] callback; [prevMsg]
    is [messages[index - 1]], absent for the first message. *)
Definition showUnreadSeparator (self : option Z) (initialLastReadId : option Z)
    (prevMsg : option Message) (msg : Message) : bool :=
  let isSent := bool_decide (Some (m_user_id msg) = self) in
  let lastReadId := JS.num_or initialLastReadId 0 in
  bool_decide (lastReadId > 0)
  && bool_decide (m_id msg > lastReadId)
  && match prevMsg with
     | Some p => bool_decide (m_id p <= lastReadId)
     | None => true
     end
  && negb isSent.

(** The separator flags of a whole list, in display order. *)
Fixpoint unreadSeparators (self : option Z) (initialLastReadId : option Z)
    (prevMsg : option Message) (msgs : list Message) : list bool :=
  match msgs with
  | [] => []
  | msg :: rest =>
      showUnreadSeparator self initialLastReadId prevMsg msg
        :: unreadSeparators self initialLastReadId (Some msg) rest
  end.

(** [channel] as the component renders it: the query data under
    [['channel', channelId]] of the current route parameter; without a
    route parameter the query is disabled and there is no data. *)
Definition channel (st : ChatState) : option Channel :=
  match channelId st with
  | Some cid => channel_cache st !! cid
  | None => None
  end.


(** *** [handleReactionClick] *)

Inductive ReactionRequest :=
  | DeleteReaction (message_id : Z) (emoji : string)
  | PostReaction (message_id : Z) (emoji : string).

(** [None]: the message is not loaded and no request is made. *)
Definition handleReactionClick (self : option Z) (msgs : list Message)
    (messageId : Z) (emoji : string) : option ReactionRequest :=
  match List.find (fun m => bool_decide (m_id m = messageId)) msgs with
  | None => None
  | Some message =>
      let hasMyReaction :=
        match m_reactions message with
        | Some rs =>
            existsb (fun r => bool_decide (Some (r_user_id r) = self)
                              && bool_decide (r_emoji r = emoji)) rs
        | None => false
        end in
      Some (if hasMyReaction then DeleteReaction messageId emoji
            else PostReaction messageId emoji)
  end.

(** *** File drag and drop *)

Record DragState := {
  dragCounter : Z;
  isDragging : bool;
  droppedFile : option string;
  isSendModalOpen : bool
}.

(** [hasFiles] is [e.dataTransfer.types.includes('Files')]; [files] are the
    names of [e.dataTransfer.files]. *)
Inductive DragEvent :=
  | DragEnter (hasFiles : bool)
  | DragOver
  | DragLeave (hasFiles : bool)
  | Drop (files : list string).

Definition drag_initial : DragState :=
  {| dragCounter := 0; isDragging := false; droppedFile := None;
     isSendModalOpen := false |}.

Definition handleDragEnter (hasFiles : bool) (d : DragState) : DragState :=
  if hasFiles then
    let c := dragCounter d + 1 in
    {| dragCounter := c;
       isDragging := if decide (c = 1) then true else isDragging d;
       droppedFile := droppedFile d; isSendModalOpen := isSendModalOpen d |}
  else d.

Definition handleDragLeave (hasFiles : bool) (d : DragState) : DragState :=
  if hasFiles then
    let c := dragCounter d - 1 in
    if decide (c <= 0) then
      {| dragCounter := 0; isDragging := false;
         droppedFile := droppedFile d; isSendModalOpen := isSendModalOpen d |}
    else
      {| dragCounter := c; isDragging := isDragging d;
         droppedFile := droppedFile d; isSendModalOpen := isSendModalOpen d |}
  else d.

Definition handleDrop (files : list string) (d : DragState) : DragState :=
  match files with
  | f :: _ =>
      {| dragCounter := 0; isDragging := false; droppedFile := Some f;
         isSendModalOpen := true |}
  | [] =>
      {| dragCounter := 0; isDragging := false; droppedFile := droppedFile d;
         isSendModalOpen := isSendModalOpen d |}
  end.

Definition drag_step (d : DragState) (e : DragEvent) : DragState :=
  match e with
  | DragEnter hasFiles => handleDragEnter hasFiles d
  | DragOver => d
  | DragLeave hasFiles => handleDragLeave hasFiles d
  | Drop files => handleDrop files d
  end.

(** *** [formatLastSeen] *)

(** The calls of the translation function [t] the helper can return, and
    [date.toLocaleDateString('ru-RU')] of the parsed date. *)
Inductive LastSeenText :=
  | Offline                       (* t('chat.offline') *)
  | JustNow                       (* t('chat.justNow') *)
  | MinsAgo (count : Z)           (* t('chat.minsAgo', { count }) *)
  | HoursAgo (count : Z)
  | DaysAgo (count : Z)
  | LocaleDate (date : option Z).

(** [lastSeen] is [None] when it is null, undefined or empty; otherwise it
    carries [new Date(lastSeen).getTime()], [None] for an invalid date
    (every comparison with [NaN] is false). *)
Definition formatLastSeen (now : Z) (lastSeen : option (option Z)) : LastSeenText :=
  match lastSeen with
  | None => Offline
  | Some None => LocaleDate None
  | Some (Some date) =>
      let diffMs := now - date in
      let diffMins := diffMs / 60000 in
      let diffHours := diffMs / 3600000 in
      let diffDays := diffMs / 86400000 in
      if decide (diffMins < 1) then JustNow
      else if decide (diffMins < 60) then MinsAgo diffMins
      else if decide (diffHours < 24) then HoursAgo diffHours
      else if decide (diffDays < 7) then DaysAgo diffDays
      else LocaleDate (Some date)
  end.

(** *** The message input *)

Fixpoint last_char (s : string) : option ascii :=
  match s with
  | EmptyString => None
  | String c EmptyString => Some c
  | String _ rest => last_char rest
  end.

(** [prev.endsWith(' ')] *)
Definition endsWith_space (s : string) : bool :=
  bool_decide (last_char s = Some " "%char).

(** The updater of [handleMention]. *)
Definition handleMention (username prev : string) : string :=
  let prefix :=
    if endsWith_space prev then ""
    else if decide (0 < String.length prev)%nat then " " else "" in
  String.append prev
    (String.append prefix (String.append "@" (String.append username " "))).

Inductive Outgoing :=
  | SendTyping (is_typing : bool)
  | SendMessage (content : string) (parent_id : option Z).

Record InputState := {
  inputMessage : string;
  lastTypingSentRef : bool;
  typingDebounceRef : option positive;
  (** pending debounce timeouts with their deadlines, and the next handle *)
  debounceTimers : list (positive * Z);
  nextDebounce : positive;
  replyTo : option Message;        (* the [activeThread] prop *)
  sent : list Outgoing             (* what went out through the socket hook *)
}.

Definition input_initial : InputState :=
  {| inputMessage := ""; lastTypingSentRef := false; typingDebounceRef := None;
     debounceTimers := []; nextDebounce := 1%positive; replyTo := None;
     sent := [] |}.

Section MessageInput.

(** [String.prototype.trim] *)
Variable trim : string -> string.

Definition handleInputChange (now : Z) (value : string) (s : InputState)
  : InputState :=
  let start := if lastTypingSentRef s then [] else [SendTyping true] in
  let cleared :=
    match typingDebounceRef s with
    | Some h => filter (fun t => t.1 <> h) (debounceTimers s)
    | None => debounceTimers s
    end in
  let h := nextDebounce s in
  {| inputMessage := value; lastTypingSentRef := true;
     typingDebounceRef := Some h;
     debounceTimers := cleared ++ [(h, now + 3000)];
     nextDebounce := Pos.succ h;
     replyTo := replyTo s; sent := sent s ++ start |}.

(** The callback of the debounce timeout. *)
Definition debounceFired (s : InputState) : InputState :=
  {| inputMessage := inputMessage s; lastTypingSentRef := false;
     typingDebounceRef := typingDebounceRef s;
     debounceTimers := debounceTimers s; nextDebounce := nextDebounce s;
     replyTo := replyTo s; sent := sent s ++ [SendTyping false] |}.

Definition input_run_due (now : Z) (s : InputState) : InputState :=
  let due := filter (fun t => t.2 <= now) (debounceTimers s) in
  let pending := filter (fun t => ~ t.2 <= now) (debounceTimers s) in
  foldl (fun acc _ => debounceFired acc)
    {| inputMessage := inputMessage s; lastTypingSentRef := lastTypingSentRef s;
       typingDebounceRef := typingDebounceRef s;
       debounceTimers := pending; nextDebounce := nextDebounce s;
       replyTo := replyTo s; sent := sent s |} due.

Definition handleSendMessage (isConnected : bool) (s : InputState) : InputState :=
  if JS.truthy_str (trim (inputMessage s)) && isConnected then
    {| inputMessage := ""; lastTypingSentRef := false;
       typingDebounceRef := typingDebounceRef s;
       debounceTimers := debounceTimers s; nextDebounce := nextDebounce s;
       replyTo := None;
       sent := sent s
               ++ [SendMessage (trim (inputMessage s)) (m_id <$> replyTo s);
                   SendTyping false] |}
  else s.

(** [setActiveThread(msg)] from the reply button or the thread header. *)
Definition setReplyTo (r : option Message) (s : InputState) : InputState :=
  {| inputMessage := inputMessage s; lastTypingSentRef := lastTypingSentRef s;
     typingDebounceRef := typingDebounceRef s;
     debounceTimers := debounceTimers s; nextDebounce := nextDebounce s;
     replyTo := r; sent := sent s |}.

Inductive InputEvent :=
  | Change (now : Z) (value : string)
  | Submit (isConnected : bool)
  | Reply (r : option Message)
  | Elapse (now : Z).

Definition input_step (s : InputState) (e : InputEvent) : InputState :=
  match e with
  | Change now value => handleInputChange now value s
  | Submit isConnected => handleSendMessage isConnected s
  | Reply r => setReplyTo r s
  | Elapse now => input_run_due now s
  end.

End MessageInput.

(** The typing signals of a log, oldest first. *)
Definition typing_signals (log : list Outgoing) : list bool :=
  omap (fun o => match o with SendTyping b => Some b | _ => None end) log.

(** ** The other handlers of the main layout *)

Module Events.

Inductive Notice :=
  | InvalidateQueries (key : list string)
  | ClearUnread (channel : Z)
  | AddDocUnread (document : Z) (channel : option Z)
  | Navigate (path : string)
  (** [onClick], when given, opens the document viewer on (url, title) *)
  | Toast (kind title body : string) (duration : Z)
      (opens : option (string * string))
  | SystemNotification (title body tag : string).

#[global] Instance Notice_eq_dec : EqDecision Notice.
Proof. solve_decision. Defined.

Record Person := { full_name : option string; username : string }.

Record ChannelDeleted := {
  cd_channel_id : Z;
  cd_deleted_by : option Person;
  cd_is_direct : bool;
  cd_channel_name : string
}.

Record DocumentShared := {
  ds_id : Z;
  ds_document_id : Z;
  ds_channel_id : option Z;
  ds_title : string;
  ds_owner_name : string;
  ds_file_path : string
}.



(** [s.replace(pat, rep)] with a string pattern: the leftmost occurrence. *)
Fixpoint replace_first (pat rep s : string) : string :=
  match Layout.drop_prefix pat s with
  | Some rest => String.append rep rest
  | None =>
      match s with
      | String c s' => String c (replace_first pat rep s')
      | EmptyString => EmptyString
      end
  end.

(** [currentChannelId && parseInt(currentChannelId) === channel]; on the
    digits the pattern captures [parseInt] is the decimal value (exact
    below 2^53). *)
Definition isViewing (pathname : string) (channel : option Z) : bool :=
  match Layout.match_chat pathname, channel with
  | Some ds, Some c => bool_decide (JS.decimal ds = Some c)
  | _, _ => false
  end.

Section Handlers.

(** The translation function of [useTranslation]. *)
Variable t : string -> list (string * string) -> string.
(** [import.meta.env.VITE_API_URL || api.defaults.baseURL || ''] *)
Variable apiUrl : string.

Variable user : option Layout.AuthUser.
Variable pathname : string.

Definition getFullUrl (path : string) : string :=
  if negb (JS.truthy_str path) then ""
  else if bool_decide (is_Some (Layout.drop_prefix "http" path)) then path
  else String.append (replace_first "/api" "" apiUrl) path.

Definition browser_on : bool :=
  bool_decide ((user ≫= Layout.notify_browser) = Some true).

Definition onChannelDeleted (data : ChannelDeleted) : list Notice :=
  let channel_id := cd_channel_id data in
  let deletedByName :=
    match cd_deleted_by data with
    | Some p =>
        let n := match full_name p with
                 | Some f => JS.str_or f (username p)
                 | None => username p
                 end in
        JS.str_or n (t "common.unknown" [])
    | None => t "common.unknown" []
    end in
  [InvalidateQueries ["channels"]; ClearUnread channel_id]
  ++ (if isViewing pathname (Some channel_id) then [Navigate "/"] else [])
  ++ [Toast "deleted" (t "chat.chat_deleted" [])
        (if cd_is_direct data
         then t "chat.direct_chat_deleted_by" [("name", deletedByName)]
         else t "chat.channel_deleted_by"
                [("name", deletedByName); ("channel", "")])
        6000 None]
  ++ (if browser_on then
        [SystemNotification (t "chat.chat_deleted" [])
           (if cd_is_direct data
            then t "chat.direct_chat_deleted_by" [("name", deletedByName)]
            else t "chat.channel_deleted_by"
                   [("name", deletedByName);
                    ("channel", cd_channel_name data)])
           (String.append "channel-deleted-" (pretty channel_id))]
      else []).

Definition onDocumentShared (data : DocumentShared) : list Notice :=
  let fileUrl := getFullUrl (ds_file_path data) in
  let body := t "common.document_shared_by"
                [("owner", ds_owner_name data); ("title", ds_title data)] in
  [InvalidateQueries ["documents"; "received"];
   Toast "success" (t "common.new_document" []) body 10000
     (if JS.truthy_str fileUrl then Some (fileUrl, ds_title data) else None)]
  ++ (if negb (bool_decide (pathname = "/board"))
         && negb (isViewing pathname (ds_channel_id data))
      then [AddDocUnread (ds_document_id data) (ds_channel_id data)] else [])
  ++ (if negb (bool_decide ((user ≫= Layout.notify_browser) = Some false))
      then [SystemNotification (t "common.new_document" []) body
              (String.append "doc-" (pretty (ds_id data)))]
      else []).

End Handlers.


(** The two connection-status effects of the layout. *)
Record Status := {
  isOffline : bool;             (* store values of the last render *)
  isConnected : bool;
  wasOfflineRef : bool;
  wasConnectedRef : bool
}.

Section StatusEffects.

Variable t : string -> list (string * string) -> string.

Definition offlineEffect (offline wasOffline : bool) : list Notice :=
  if offline && negb wasOffline then
    [Toast "error"
       (t "common.offline_mode" [("defaultValue", "Оффлайн-режим")])
       (t "common.no_internet_desc"
          [("defaultValue", "Проверьте подключение к интернету")])
       5000 None]
  else if negb offline && wasOffline then
    [Toast "success"
       (t "common.online" [("defaultValue", "В сети")])
       (t "common.internet_restored"
          [("defaultValue", "Подключение к интернету восстановлено")])
       3000 None]
  else [].

Definition connectionEffect (offline connected wasConnected : bool)
  : list Notice :=
  if negb offline then
    if negb connected && wasConnected then
      [Toast "warning"
         (t "common.reconnecting" [("defaultValue", "Подключение...")])
         (t "common.connection_lost_desc"
            [("defaultValue",
              "Связь с сервером прервана, пытаемся восстановить...")])
         4000 None]
    else if connected && negb wasConnected then
      [Toast "success"
         (t "common.connected" [("defaultValue", "Подключено")])
         (t "common.server_sync_complete"
            [("defaultValue", "Связь с сервером восстановлена")])
         3000 None]
    else []
  else [].

(** Mounting with the store values [offline] and [connected]. *)
Definition status_mount (offline connected : bool) : Status :=
  {| isOffline := offline; isConnected := connected;
     wasOfflineRef := offline; wasConnectedRef := connected |}.

(** A render with new store values: an effect runs when one of its
    dependencies changed. *)
Definition status_render (offline connected : bool) (s : Status)
  : Status * list Notice :=
  let run1 := negb (eqb offline (isOffline s)) in
  let run2 := run1 || negb (eqb connected (isConnected s)) in
  ({| isOffline := offline; isConnected := connected;
      wasOfflineRef := if run1 then offline else wasOfflineRef s;
      wasConnectedRef := if run2 then connected else wasConnectedRef s |},
   (if run1 then offlineEffect offline (wasOfflineRef s) else [])
   ++ (if run2 then connectionEffect offline connected (wasConnectedRef s)
       else [])).

(** The status after a sequence of renders. *)
Definition status_steps (s : Status) (renders : list (bool * bool)) : Status :=
  foldl (fun s oc => (status_render oc.1 oc.2 s).1) s renders.

End StatusEffects.

End Events.

(** A live frame arrives in order: when [onMessage] takes it for a new
    message, its id is stored already or is above every stored id. *)
Definition arrives_in_order (st : ChatState) (i : Input) : Prop :=
  match i with
  | Frame _ data =>
      is_type data "new_message" || no_type data = true ->
      has_id (ws_id data) (messages st) = true \/
      Forall (fun m => m_id m < ws_id data) (messages st)
  | _ => True
  end.

(** Every live frame of a run arrives in order, in the state it meets. *)
Fixpoint live_in_order (Number_ : string -> option Z) (self : option Z)
    (st : ChatState) (inputs : list Input) : Prop :=
  match inputs with
  | [] => True
  | i :: rest =>
      arrives_in_order st i /\
      live_in_order Number_ self (step Number_ self st i) rest
  end.

(** The channel id in the path, if there is one, is a safe integer (below
    2^53): there [Number] and [parseInt] both give the exact decimal value
    of the digits. *)
Definition safe_path (pathname : string) : bool :=
  match Layout.currentChannelIdNum pathname with
  | Some n => bool_decide (n < 2 ^ 53)
  | None => true
  end.

(** The frame with its [type] set to ["new_message"]. *)
Definition typed_new_message (data : WebSocketMessage) : WebSocketMessage :=
  {| ws_type := Some "new_message"; ws_user_id := ws_user_id data;
     ws_full_name := ws_full_name data; ws_username := ws_username data;
     ws_is_typing := ws_is_typing data; ws_channel_id := ws_channel_id data;
     ws_last_read_id := ws_last_read_id data; ws_status := ws_status data;
     ws_message_id := ws_message_id data; ws_reaction := ws_reaction data;
     ws_emoji := ws_emoji data; ws_online_count := ws_online_count data;
     ws_id := ws_id data; ws_content := ws_content data;
     ws_parent_id := ws_parent_id data; ws_reply_count := ws_reply_count data;
     ws_reactions := ws_reactions data |}.

(** How many messages of a list show the unread separator. *)
Definition separator_count (flags : list bool) : nat :=
  length (List.filter (fun b => b) flags).

(** Two start signals in a row. *)
Fixpoint double_start (l : list bool) : bool :=
  match l with
  | [] => false
  | true :: rest =>
      match rest with
      | true :: _ => true
      | _ => double_start rest
      end
  | false :: rest => double_start rest
  end.

Definition is_notice_toast (n : Events.Notice) : bool :=
  match n with Events.Toast _ _ _ _ _ => true | _ => false end.

Definition is_notice_system (n : Events.Notice) : bool :=
  match n with Events.SystemNotification _ _ _ => true | _ => false end.

Definition is_doc_unread (n : Events.Notice) : bool :=
  match n with Events.AddDocUnread _ _ => true | _ => false end.

(** Case analysis on membership in an explicit list. *)
Ltac in_cases :=
  repeat match goal with
         | H : In _ (_ :: _) |- _ => destruct H as [H|H]
         | H : In _ [] |- _ => destruct H
         | H : _ \/ _ |- _ => destruct H as [H|H]
         | H : False |- _ => destruct H
         end.

(** More frames and states to run the handlers on. *)
Module MoreExamples.


Definition deleted_frame (message_id : Z) : WebSocketMessage :=
  {| ws_type := Some "message_deleted"; ws_user_id := 0; ws_full_name := "";
     ws_username := ""; ws_is_typing := false; ws_channel_id := 0;
     ws_last_read_id := 0; ws_status := ""; ws_message_id := message_id;
     ws_reaction := Examples.no_reaction; ws_emoji := "";
     ws_online_count := 0; ws_id := 0; ws_content := "";
     ws_parent_id := None; ws_reply_count := None; ws_reactions := None |}.




End MoreExamples.


(** * Properties *)

(** ** Backfill paging *)

(** C9. A last page shorter than the page size of 50 gives no next page
    parameter: the query has no next page and the scroll handler never asks
    for one; a last page of exactly 50 messages gives the next page
    parameter, the number of pages fetched so far, and a next page is
    available. *)
Theorem short_page_exhausts_backfill :
  forall (pages : list (list Message)) (lastPage : list Message),
    last pages = Some lastPage ->
    ((length lastPage < 50)%nat ->
       MessageStore.getNextPageParam lastPage pages = None /\
       hasNextPage pages = false /\
       forall scrollTop fetching, handleScroll scrollTop pages fetching = false)
    /\
    (length lastPage = 50%nat ->
       MessageStore.getNextPageParam lastPage pages = Some (length pages) /\
       hasNextPage pages = true /\
       forall scrollTop, scrollTop < 50 -> handleScroll scrollTop pages false = true).
Proof.
  intros pages lastPage Hlast.
  unfold handleScroll, hasNextPage, MessageStore.getNextPageParam.
  rewrite Hlast. split; intros Hlen.
  - destruct (decide (length lastPage = 50%nat)) as [E|_]; [lia|].
    split; [reflexivity|]. split.
    + apply bool_decide_eq_false. intros [x Hx]. discriminate.
    + intros scrollTop fetching.
      rewrite (bool_decide_eq_false_2 (is_Some None)).
      * now rewrite andb_false_r.
      * intros [x Hx]. discriminate.
  - destruct (decide (length lastPage = 50%nat)) as [_|N]; [|contradiction].
    split; [reflexivity|]. split.
    + apply bool_decide_eq_true. eauto.
    + intros scrollTop Hs.
      rewrite (bool_decide_eq_true_2 (scrollTop < 50) Hs).
      rewrite (bool_decide_eq_true_2 (is_Some (Some (length pages)))); eauto.
Qed.

Lemma short_page_exhausts_backfill_witness :
  last [replicate 50 (Examples.msg 1 None None); [Examples.msg 2 None None]]
    = Some [Examples.msg 2 None None]
  /\ hasNextPage
       [replicate 50 (Examples.msg 1 None None); [Examples.msg 2 None None]]
     = false
  /\ hasNextPage [replicate 50 (Examples.msg 1 None None)] = true.
Proof.
  split; [reflexivity|]. split.
  - refine (proj1 (proj2 (proj1 (short_page_exhausts_backfill
      [replicate 50 (Examples.msg 1 None None); [Examples.msg 2 None None]]
      [Examples.msg 2 None None] eq_refl) _))).
    simpl. lia.
  - refine (proj1 (proj2 (proj2 (short_page_exhausts_backfill
      [replicate 50 (Examples.msg 1 None None)]
      (replicate 50 (Examples.msg 1 None None)) eq_refl) _))).
    reflexivity.
Defined.

(** ** Read receipts *)

Section ReadReceipts.

Variable Number_ : string -> option Z.
Variable self : option Z.

Lemma others_read_alter (f : Channel -> Channel) (k cid : string) (st : ChatState) :
  (forall c, JS.num_or (c_others_read_id c) 0 <= JS.num_or (c_others_read_id (f c)) 0) ->
  others_read cid st <= others_read cid (set_channel_cache (alter f k) st).
Proof.
  intros Hf. unfold others_read. simpl.
  destruct (decide (k = cid)) as [->|Hne].
  - rewrite lookup_alter_eq.
    destruct (channel_cache st !! cid) as [c|]; simpl; [apply Hf | lia].
  - rewrite lookup_alter_ne by done. lia.
Qed.

Lemma num_or_Some (v : Z) : JS.num_or (Some v) 0 = v.
Proof.
  unfold JS.num_or, JS.truthy_num. destruct (Z.eqb_spec v 0); simpl; lia.
Qed.

Lemma num_or_max (x : option Z) (v : Z) :
  JS.num_or x 0 <= JS.num_or (Some (Z.max (JS.num_or x 0) v)) 0.
Proof. rewrite num_or_Some. lia. Qed.

Lemma channel_cache_fires (due : list (positive * Timer)) (st : ChatState) :
  channel_cache (foldl (fun s t => fire t s) st due) = channel_cache st.
Proof.
  revert st. induction due as [|t due IH]; intros st; simpl; [done|].
  now rewrite IH.
Qed.

Lemma others_read_onMessage (now : Z) (st : ChatState) (data : WebSocketMessage)
    (cid : string) :
  others_read cid st <= others_read cid (onMessage Number_ self now st data).1.
Proof.
  unfold onMessage.
  repeat match goal with
         | |- context [if is_type ?d ?s then _ else _] => destruct (is_type d s)
         end; simpl; try reflexivity.
  - destruct (decide (Some (ws_user_id data) = self)); simpl; [reflexivity|].
    unfold typing_updater. destruct (ws_is_typing data); reflexivity.
  - unfold read_receipt.
    destruct (channelId st) as [k|]; [|reflexivity].
    destruct (viewing Number_ st (ws_channel_id data)); [|reflexivity].
    apply others_read_alter. intros c. simpl. apply num_or_max.
  - unfold presence. destruct (channelId st) as [k|]; [|reflexivity].
    apply others_read_alter. intros c. simpl. reflexivity.
  - destruct (is_type data "new_message" || no_type data); [|reflexivity].
    unfold new_message. simpl.
    destruct (ws_parent_id data) as [p|]; [destruct (JS.truthy_num p)|];
      reflexivity.
Qed.

Lemma others_read_step (st : ChatState) (i : Input) (cid : string) :
  others_read cid st <= others_read cid (step Number_ self st i).
Proof.
  destruct i as [now data|now|k|pages]; simpl.
  - apply others_read_onMessage.
  - unfold others_read, run_due. rewrite channel_cache_fires. reflexivity.
  - unfold others_read, switchChannel, resetOnChannelChange. simpl.
    destruct (decide (prevChannelIdRef st <> k)); reflexivity.
  - reflexivity.
Qed.

Lemma others_read_run (inputs : list Input) (st : ChatState) (cid : string) :
  others_read cid st <= others_read cid (run Number_ self st inputs).
Proof.
  revert st. induction inputs as [|i inputs IH]; intros st; simpl; [lia|].
  etransitivity; [apply (others_read_step st i)|apply IH].
Qed.

(** C10. A read receipt for the open, loaded channel stores
    [max(others_read_id || 0, last_read_id)]; over every run of the
    component the stored value of every cached channel never decreases, so
    a late receipt with a smaller [last_read_id] does not lower it. *)
Theorem read_receipt_never_lowers :
  forall (now : Z) (st : ChatState) (data : WebSocketMessage)
         (cid : string) (c : Channel) (inputs : list Input),
    ws_type data = Some "read_receipt" ->
    channelId st = Some cid -> cid <> "" ->
    Number_ cid = Some (ws_channel_id data) ->
    channel_cache st !! cid = Some c ->
    let st' := (onMessage Number_ self now st data).1 in
    channel_cache st' !! cid =
      Some (with_others_read_id c
              (Z.max (JS.num_or (c_others_read_id c) 0) (ws_last_read_id data)))
    /\ others_read cid st' =
         Z.max (others_read cid st) (ws_last_read_id data)
    /\ others_read cid st <= others_read cid st'
    /\ others_read cid st' <= others_read cid (run Number_ self st' inputs).
Proof.
  intros now st data cid c inputs Hty Hcid Hne Hnum Hc st'.
  assert (Hst' : channel_cache st' !! cid =
    Some (with_others_read_id c
            (Z.max (JS.num_or (c_others_read_id c) 0) (ws_last_read_id data)))).
  { subst st'. unfold onMessage, is_type. rewrite Hty.
    rewrite bool_decide_eq_false_2 by discriminate.
    rewrite bool_decide_eq_true_2 by reflexivity.
    simpl. unfold read_receipt, viewing. rewrite Hcid.
    replace (JS.truthy_str cid) with true.
    2:{ unfold JS.truthy_str. destruct (String.eqb_spec cid ""); [contradiction|done]. }
    rewrite bool_decide_eq_true_2 by done. simpl.
    rewrite lookup_alter_eq, Hc. reflexivity. }
  split; [exact Hst'|]. split; [|split].
  - unfold others_read. rewrite Hst', Hc.
    unfold with_others_read_id, c_others_read_id at 1.
    apply num_or_Some.
  - apply others_read_onMessage.
  - apply others_read_run.
Qed.

End ReadReceipts.

Lemma read_receipt_never_lowers_witness :
  let late := Examples.receipt_frame 1 2 4 in
  let st' := (onMessage Examples.Number_ Examples.me 0 Examples.open1 late).1 in
  others_read "1" Examples.open1 = 10 /\ others_read "1" st' = 10.
Proof.
  split; [reflexivity|].
  pose proof (read_receipt_never_lowers Examples.Number_ Examples.me 0
                Examples.open1 (Examples.receipt_frame 1 2 4) "1"
                (Examples.chan 1 (Some 10) None) []
                eq_refl eq_refl ltac:(discriminate) eq_refl eq_refl) as H.
  exact (proj1 (proj2 H)).
Defined.

(** ** Frames of an unknown kind *)

Section UnknownFrames.

Variable Number_ : string -> option Z.
Variable self : option Z.

Lemma is_type_other (data : WebSocketMessage) (ty known : string) :
  ws_type data = Some ty -> ty <> known -> is_type data known = false.
Proof.
  intros Hty Hne. unfold is_type. rewrite Hty.
  apply bool_decide_eq_false. intros [= E]. contradiction.
Qed.

(** C8, as the handler has it.  A frame whose [type] is a non-empty
    string outside the known kinds falls through every branch: the
    handler returns normally, with the component state as it was and no
    effect issued.  (There is no decoder and no error; a frame without a
    [type], or with an empty one, is taken for a message.) *)
Theorem unknown_type_is_ignored :
  forall (now : Z) (st : ChatState) (data : WebSocketMessage) (ty : string),
    ws_type data = Some ty ->
    ty <> "" ->
    ~ In ty known_types ->
    onMessage Number_ self now st data = (st, []).
Proof.
  intros now st data ty Hty Hne Hnot.
  unfold known_types in Hnot. simpl in Hnot.
  unfold onMessage.
  rewrite !(is_type_other data ty) by (done || (intros ->; apply Hnot; tauto)).
  unfold no_type. rewrite Hty. unfold JS.truthy_str.
  destruct (String.eqb_spec ty ""); [contradiction|reflexivity].
Qed.

End UnknownFrames.

Lemma unknown_type_is_ignored_witness :
  onMessage Examples.Number_ Examples.me 0 Examples.typing7
    (Examples.frame (Some "unknown_kind")) = (Examples.typing7, []).
Proof.
  apply (unknown_type_is_ignored Examples.Number_ Examples.me 0
           Examples.typing7 (Examples.frame (Some "unknown_kind"))
           "unknown_kind" eq_refl).
  - discriminate.
  - unfold known_types. simpl. intros H.
    repeat (destruct H as [H|H]; [discriminate H|]). exact H.
Defined.

(** C8, as stated, fails: a frame whose [type] is the empty string names no
    known kind, yet the handler stores it as a message. *)
Lemma empty_type_is_stored_as_message :
  let data := Examples.message_frame (Some "") 9 1 3 None in
  ws_type data = Some "" /\
  ~ In "" known_types /\
  messages (onMessage Examples.Number_ Examples.me 0 Examples.open1 data).1
    = messages Examples.open1 ++ [as_message data] /\
  (onMessage Examples.Number_ Examples.me 0 Examples.open1 data).1
    <> Examples.open1.
Proof.
  split; [reflexivity|]. split; [|split].
  - unfold known_types. simpl. intros H.
    repeat (destruct H as [H|H]; [discriminate H|]). exact H.
  - reflexivity.
  - intros E. apply (f_equal messages) in E. discriminate E.
Qed.

(** ** Channel switch and the typing set *)

Lemma switchChannel_typingUsers (cid : option string) (st : ChatState) :
  typingUsers (switchChannel cid st) = typingUsers st
  /\ timers (switchChannel cid st) = timers st.
Proof.
  unfold switchChannel, resetOnChannelChange. simpl.
  destruct (decide (prevChannelIdRef st <> cid)); split; reflexivity.
Qed.

(** C2 on the code: user 7 is typing in channel 1 when the route changes to
    channel 2.  The reset empties the message list and leaves the typing
    entry, and its timer, in place. *)
Theorem switch_keeps_typing_entry :
  let st := switchChannel (Some "2") Examples.typing7 in
  channelId st = Some "2" /\
  messages st = [] /\
  typingUsers st !! 7 = Some {| name := "Alice"; timestamp := 1000 |} /\
  typingUsers st = typingUsers Examples.typing7.
Proof.
  vm_compute. repeat split; reflexivity.
Qed.

(** ** Live messages *)

Section NewMessage.

Variable Number_ : string -> option Z.
Variable self : option Z.

Lemma has_id_ids (k : Z) (l l' : list Message) :
  map m_id l = map m_id l' -> has_id k l = has_id k l'.
Proof.
  revert l'. induction l as [|x l IH]; intros [|y l'] E; try discriminate E.
  - reflexivity.
  - injection E as Ex El. unfold has_id. simpl. rewrite Ex.
    f_equal. apply IH, El.
Qed.

Lemma ids_bump (p : Z) (l : list Message) :
  map m_id (map (bump_reply_count p) l) = map m_id l.
Proof.
  induction l as [|x l IH]; simpl; [reflexivity|]. rewrite IH. f_equal.
  unfold bump_reply_count. destruct (decide (m_id x = p)); reflexivity.
Qed.

Lemma has_id_append_new (message : Message) (l : list Message) :
  has_id (m_id message) (append_new message l) = true.
Proof.
  unfold append_new. fold (has_id (m_id message) l).
  destruct (has_id (m_id message) l) eqn:E; [exact E|].
  unfold has_id. rewrite existsb_app. simpl.
  rewrite bool_decide_eq_true_2 by reflexivity.
  now rewrite orb_true_r.
Qed.

Lemma append_new_idempotent (message : Message) (l : list Message) :
  append_new message (append_new message l) = append_new message l.
Proof.
  unfold append_new at 1. fold (has_id (m_id message) (append_new message l)).
  now rewrite has_id_append_new.
Qed.

(** Whatever the frame, handling it a second time adds no entry: the list
    of stored ids after two applications is the list after one. *)
Lemma new_message_ids_idempotent (st : ChatState) (data : WebSocketMessage) :
  let once := (new_message Number_ self data st).1 in
  let twice := (new_message Number_ self data once).1 in
  map m_id (messages twice) = map m_id (messages once).
Proof.
  simpl. set (message := as_message data).
  assert (H : forall l l', map m_id l' = map m_id (append_new message l) ->
              map m_id (append_new message l') = map m_id (append_new message l)).
  { intros l l' E. unfold append_new at 1. fold (has_id (m_id message) l').
    rewrite (has_id_ids _ _ _ E), has_id_append_new. exact E. }
  destruct (ws_parent_id data) as [p|]; [destruct (JS.truthy_num p)|];
    simpl; apply H; [apply ids_bump | reflexivity | reflexivity].
Qed.

(** Without a parent the whole message list is the same after one and
    after two applications. *)
Lemma new_message_idempotent_without_parent (st : ChatState)
    (data : WebSocketMessage) :
  ws_parent_id data = None ->
  let once := (new_message Number_ self data st).1 in
  let twice := (new_message Number_ self data once).1 in
  messages twice = messages once.
Proof.
  intros Hp. unfold new_message. simpl. rewrite Hp. simpl.
  apply append_new_idempotent.
Qed.

End NewMessage.

(** C1 on the code: message 1 is loaded with no replies; the same
    [new_message] frame, a reply 2 to message 1, is handled twice.  The
    list holds ids 1 and 2 after one and after two applications, but the
    parent's [reply_count] is 1 after one and 2 after two. *)
Theorem duplicate_reply_counts_twice :
  let data := Examples.message_frame (Some "new_message") 2 1 3 (Some 1) in
  let once := (onMessage Examples.Number_ Examples.me 0 Examples.open1 data).1 in
  let twice := (onMessage Examples.Number_ Examples.me 0 once data).1 in
  map m_id (messages once) = [1; 2] /\
  map m_id (messages twice) = [1; 2] /\
  map m_reply_count (messages once) = [Some 1; None] /\
  map m_reply_count (messages twice) = [Some 2; None] /\
  messages twice <> messages once.
Proof.
  repeat split; try reflexivity.
  intros E. apply (f_equal (map m_reply_count)) in E. discriminate E.
Qed.

(** ** Notification router and unread counter *)

Section RouterProperties.

Import Layout.

Variable mentioned_by : string -> string.
Variable user : option AuthUser.
Variable channels : option (list Channel).
Variable pathname : string.
Variable now : Z.

Local Abbreviation route := (onMessageReceived mentioned_by user channels pathname now).

Lemma route_viewing (msgData : MessageReceived) :
  viewing_channel pathname (channel_id msgData) = true -> route msgData = [].
Proof.
  unfold viewing_channel, onMessageReceived.
  destruct (currentChannelIdNum pathname) as [n|]; [|discriminate].
  intros H. apply andb_true_iff in H as [Hn He].
  apply bool_decide_eq_true in He. rewrite Hn. simpl.
  rewrite bool_decide_eq_false_2; [reflexivity|]. intros Hne. contradiction.
Qed.

Lemma route_elsewhere (msgData : MessageReceived) :
  viewing_channel pathname (channel_id msgData) = false ->
  route msgData =
    let ch := channel_id msgData in
    let muted := muted_now now channels ch in
    let plain := negb (bool_decide (is_Some (truthy_doc (message msgData)))) in
    let enabled := negb (bool_decide ((user ≫= notify_browser) = Some false)) in
    let senderName := text_or (message msgData ≫= sender_name) "Someone" in
    let body := text_or (message msgData ≫= content) "New message" in
    let isMentioned := bool_decide (is_mentioned msgData = Some true) in
    let title := if isMentioned then mentioned_by senderName else senderName in
    [AddUnread ch; InvalidateChannels]
      ++ (if bool_decide ((user ≫= notify_sound) = Some true) && negb muted
          then [PlaySound] else [])
      ++ match truthy_doc (message msgData) with
         | Some d => [AddDocUnread d ch]
         | None => []
         end
      ++ (if enabled && plain && negb muted
          then (if isMentioned then [Toast title body 5000 ch] else [])
                 ++ [SystemNotification title body ch]
          else []).
Proof.
  unfold viewing_channel, onMessageReceived, muted_now.
  destruct (currentChannelIdNum pathname) as [n|]; [|reflexivity].
  intros H. apply andb_false_iff in H.
  replace (negb (JS.truthy_num n) || bool_decide (n <> channel_id msgData))
    with true; [reflexivity|].
  symmetry. destruct H as [H|H].
  - now rewrite H.
  - apply bool_decide_eq_false in H. rewrite (bool_decide_eq_true_2 _ H).
    apply orb_true_r.
Qed.

(** C3, as the router has it.  While the user is viewing the event's
    channel nothing is issued.  Otherwise a sound is played exactly when
    [notify_sound] is on and the channel is not muted; an OS notification
    is requested exactly when [notify_browser] is not [false], the message
    is not a document share and the channel is not muted; and a toast is
    shown exactly when, in addition, the event is a mention.  The author of
    the message plays no part. *)
Theorem router_fan_out :
  forall (msgData : MessageReceived),
    let effects := route msgData in
    let ch := channel_id msgData in
    let muted := muted_now now channels ch in
    let plain := truthy_doc (message msgData) = None in
    let enabled := (user ≫= notify_browser) <> Some false in
    (viewing_channel pathname ch = true -> effects = []) /\
    (viewing_channel pathname ch = false ->
       (In PlaySound effects <->
          (user ≫= notify_sound) = Some true /\ muted = false) /\
       (existsb is_system_notification effects = true <->
          enabled /\ plain /\ muted = false) /\
       (existsb is_toast effects = true <->
          enabled /\ plain /\ muted = false /\
          is_mentioned msgData = Some true)).
Proof.
  intros msgData effects ch muted plain enabled. split.
  - apply route_viewing.
  - intros Hv. subst effects. rewrite (route_elsewhere msgData Hv). simpl.
    fold ch. fold muted. subst plain enabled.
    destruct (truthy_doc (message msgData)) as [d|];
      destruct (user ≫= notify_sound) as [[|]|];
      destruct (user ≫= notify_browser) as [[|]|];
      destruct muted;
      destruct (is_mentioned msgData) as [[|]|];
      simpl; repeat split; intros; try discriminate; try tauto;
      try (intuition (congruence || discriminate)).
Qed.

(** C4, as the router has it.  The unread counter of the event's channel
    is incremented, once, exactly when the user is not viewing that
    channel; no other counter is touched, and the author is not looked
    at. *)
Theorem unread_incremented_elsewhere :
  forall (msgData : MessageReceived),
    let effects := route msgData in
    let ch := channel_id msgData in
    (In (AddUnread ch) effects <-> viewing_channel pathname ch = false) /\
    (forall c, In (AddUnread c) effects -> c = ch) /\
    (length (List.filter is_add_unread effects) <= 1)%nat.
Proof.
  intros msgData effects ch. subst effects.
  destruct (viewing_channel pathname ch) eqn:Hv.
  - rewrite (route_viewing msgData Hv). simpl.
    repeat split; try tauto; try discriminate; intros; try contradiction; lia.
  - rewrite (route_elsewhere msgData Hv). simpl. fold ch.
    destruct (truthy_doc (message msgData)) as [d|];
      destruct (bool_decide ((user ≫= notify_sound) = Some true)
                && negb (muted_now now channels ch));
      destruct (negb (bool_decide ((user ≫= notify_browser) = Some false)));
      destruct (negb (muted_now now channels ch));
      destruct (bool_decide (is_mentioned msgData = Some true));
      simpl; repeat split; intros; try tauto; try lia;
      repeat match goal with
             | H : _ \/ _ |- _ => destruct H
             | H : AddUnread _ = AddUnread _ |- _ => injection H as ->
             end; try reflexivity; try discriminate; try contradiction.
Qed.

End RouterProperties.

(** C3, as stated, fails.  Channel 2 is not muted, the user is on channel 1
    and has both notifications on: a plain message from someone else gets a
    sound and an OS notification but no toast; the same message authored by
    the user (id 1) is routed the same way; and a document share gets no OS
    notification although notifications are enabled. *)
Lemma plain_message_gets_no_toast :
  let route := Layout.onMessageReceived Examples.mentioned_by
                 (Examples.prefs (Some true) (Some true))
                 (Some [Examples.chan 2 None None]) "/chat/1" 0 in
  muted_now 0 (Some [Examples.chan 2 None None]) 2 = false /\
  viewing_channel "/chat/1" 2 = false /\
  route (Examples.received 2 None None (Some 5)) =
    [ Layout.AddUnread 2; Layout.InvalidateChannels; Layout.PlaySound;
      Layout.SystemNotification "Ann" "hi" 2 ] /\
  existsb is_toast (route (Examples.received 2 None None (Some 5))) = false /\
  route (Examples.received 2 None None (Some 1)) =
    route (Examples.received 2 None None (Some 5)) /\
  existsb is_system_notification
    (route (Examples.received 2 None (Some 8) (Some 5))) = false.
Proof. vm_compute. repeat split; reflexivity. Qed.

(** C4, as stated, fails.  The user (id 1) is on channel 1; a message for
    channel 2 that the user wrote still increments the counter of channel
    2. *)
Lemma own_message_counts_as_unread :
  let effects := Layout.onMessageReceived Examples.mentioned_by
                   (Examples.prefs (Some true) (Some true))
                   (Some [Examples.chan 2 None None]) "/chat/1" 0
                   (Examples.received 2 None None (Some 1)) in
  Layout.sender_id (Examples.received 2 None None (Some 1))
    = Layout.au_id <$> Examples.prefs (Some true) (Some true) /\
  In (Layout.AddUnread 2) effects.
Proof. vm_compute. split; [reflexivity|]. left. reflexivity. Qed.

(** ** History merge *)

Section SortByKey.

Context {A : Type} (key : A -> Z).

Local Abbreviation cmp := (fun a b : A => key a - key b).
Local Abbreviation before := (fun a b : A => key a < key b).

Lemma sort_insert_In (x y : A) (l : list A) :
  In y (JS.sort_insert cmp x l) <-> y = x \/ In y l.
Proof.
  induction l as [|z l IH]; simpl.
  - intuition congruence.
  - destruct (decide (key x - key z <= 0)); simpl; [intuition congruence|].
    rewrite IH. intuition congruence.
Qed.

Lemma Array_sort_In (y : A) (l : list A) :
  In y (JS.Array_sort cmp l) <-> In y l.
Proof.
  induction l as [|x l IH]; simpl; [tauto|].
  rewrite sort_insert_In, IH. intuition congruence.
Qed.

Lemma sort_insert_Permutation (x : A) (l : list A) :
  Permutation (JS.sort_insert cmp x l) (x :: l).
Proof.
  induction l as [|z l IH]; simpl; [reflexivity|].
  destruct (decide (key x - key z <= 0)); [reflexivity|].
  rewrite IH. apply perm_swap.
Qed.

Lemma Array_sort_Permutation (l : list A) :
  Permutation (JS.Array_sort cmp l) l.
Proof.
  induction l as [|x l IH]; simpl; [reflexivity|].
  rewrite sort_insert_Permutation. now apply perm_skip.
Qed.

(** Stability: the elements of one key keep their relative order. *)
Lemma sort_insert_filter (k : Z) (x : A) (l : list A) :
  filter (fun a => key a = k) (JS.sort_insert cmp x l)
  = filter (fun a => key a = k) (x :: l).
Proof.
  induction l as [|z l IH]; simpl; [reflexivity|].
  destruct (decide (key x - key z <= 0)); [reflexivity|].
  rewrite (filter_cons _ z), IH, !(filter_cons _ x), (filter_cons _ z).
  destruct (decide (key z = k)), (decide (key x = k)); try reflexivity. lia.
Qed.

Lemma Array_sort_filter (k : Z) (l : list A) :
  filter (fun a => key a = k) (JS.Array_sort cmp l)
  = filter (fun a => key a = k) l.
Proof.
  induction l as [|x l IH]; simpl; [reflexivity|].
  rewrite sort_insert_filter, !(filter_cons _ x), IH. reflexivity.
Qed.

Lemma sort_insert_ascending (x : A) (l : list A) :
  StronglySorted (fun a b => key a <= key b) l ->
  StronglySorted (fun a b => key a <= key b) (JS.sort_insert cmp x l).
Proof.
  induction l as [|z l IH]; intros Hl; simpl.
  - repeat constructor.
  - apply StronglySorted_inv in Hl as [Hl Hz].
    destruct (decide (key x - key z <= 0)) as [Hle|Hgt].
    + constructor; [constructor; assumption|].
      constructor; [lia|]. eapply Forall_impl; [exact Hz|]. simpl. intros; lia.
    + constructor; [apply IH, Hl|].
      apply List.Forall_forall. intros y Hy. apply sort_insert_In in Hy as [->|Hy].
      * lia.
      * rewrite List.Forall_forall in Hz. apply Hz, Hy.
Qed.

Lemma Array_sort_ascending (l : list A) :
  StronglySorted (fun a b => key a <= key b) (JS.Array_sort cmp l).
Proof.
  induction l as [|x l IH]; simpl; [constructor|].
  apply sort_insert_ascending, IH.
Qed.

(** Ascending with pairwise distinct keys is strictly ascending. *)
Lemma ascending_NoDup_strict (l : list A) :
  StronglySorted (fun a b => key a <= key b) l ->
  NoDup (map key l) ->
  StronglySorted before l.
Proof.
  induction l as [|x l IH]; intros Hs Hn; [constructor|].
  apply StronglySorted_inv in Hs as [Hs Hx].
  apply NoDup_cons in Hn as [Hx' Hn].
  constructor; [apply IH; assumption|].
  apply List.Forall_forall. intros y Hy.
  rewrite List.Forall_forall in Hx. specialize (Hx y Hy).
  assert (key y <> key x).
  { intros E. apply Hx'. rewrite <- E. apply list_elem_of_In, in_map, Hy. }
  lia.
Qed.

Lemma strict_NoDup (l : list A) :
  StronglySorted before l -> NoDup (map key l).
Proof.
  induction l as [|x l IH]; intros Hs; simpl; [constructor|].
  apply StronglySorted_inv in Hs as [Hs Hx].
  apply NoDup_cons. split; [|apply IH, Hs].
  intros Hin. apply list_elem_of_In, in_map_iff in Hin as (y & Ey & Hy).
  rewrite List.Forall_forall in Hx. specialize (Hx y Hy). lia.
Qed.

(** Two strictly ascending lists with the same elements are equal. *)
Lemma strict_ext (l1 l2 : list A) :
  StronglySorted before l1 -> StronglySorted before l2 ->
  (forall a, In a l1 <-> In a l2) -> l1 = l2.
Proof.
  revert l2. induction l1 as [|x l1 IH]; intros [|y l2] H1 H2 Hin.
  - reflexivity.
  - exfalso. apply (Hin y). now left.
  - exfalso. apply (Hin x). now left.
  - apply StronglySorted_inv in H1 as [H1 Hx].
    apply StronglySorted_inv in H2 as [H2 Hy].
    rewrite List.Forall_forall in Hx, Hy.
    assert (x = y) as <-.
    { destruct (proj1 (Hin x) (or_introl eq_refl)) as [E|Hx2]; [now symmetry|].
      destruct (proj2 (Hin y) (or_introl eq_refl)) as [E|Hy1]; [exact E|].
      specialize (Hx _ Hy1). specialize (Hy _ Hx2). lia. }
    f_equal. apply IH; try assumption.
    intros a. split; intros Ha.
    + destruct (proj1 (Hin a) (or_intror Ha)) as [E|Ha2]; [|exact Ha2].
      subst a. specialize (Hx _ Ha). lia.
    + destruct (proj2 (Hin a) (or_intror Ha)) as [E|Ha1]; [|exact Ha1].
      subst a. specialize (Hy _ Ha). lia.
Qed.

End SortByKey.

Section KeyedInsertion.

Context {K V : Type} `{EqDecision K}.

Implicit Types (m acc : list (K * V)) (es : list (K * V)).

Lemma assoc_set_keys (a k : K) (v : V) m :
  In a (map fst (JS.assoc_set k v m)) <-> a = k \/ In a (map fst m).
Proof.
  induction m as [|[k0 v0] m IH]; simpl.
  - intuition congruence.
  - destruct (decide (k0 = k)) as [->|Hne]; simpl; [intuition congruence|].
    rewrite IH. intuition congruence.
Qed.

Lemma assoc_set_NoDup (k : K) (v : V) m :
  NoDup (map fst m) -> NoDup (map fst (JS.assoc_set k v m)).
Proof.
  induction m as [|[k0 v0] m IH]; simpl; intros Hn.
  - apply NoDup_singleton.
  - apply NoDup_cons in Hn as [Hk0 Hn].
    destruct (decide (k0 = k)) as [->|Hne]; simpl.
    + apply NoDup_cons. split; assumption.
    + apply NoDup_cons. split; [|apply IH, Hn].
      rewrite list_elem_of_In, assoc_set_keys. rewrite list_elem_of_In in Hk0.
      intros [E|Hin]; [congruence|contradiction].
Qed.

Lemma assoc_set_In (k k' : K) (v v' : V) m :
  NoDup (map fst m) ->
  In (k, v) (JS.assoc_set k' v' m) <->
    (k = k' /\ v = v') \/ (k <> k' /\ In (k, v) m).
Proof.
  induction m as [|[k0 v0] m IH]; simpl; intros Hn.
  - intuition congruence.
  - apply NoDup_cons in Hn as [Hk0 Hn]. rewrite list_elem_of_In in Hk0.
    assert (Hfresh : forall w, In (k0, w) m -> False).
    { intros w Hin. apply Hk0. apply (in_map fst) in Hin. exact Hin. }
    destruct (decide (k0 = k')) as [->|Hne]; simpl.
    + split.
      * intros [[= <- <-]|Hin]; [left; split; reflexivity|].
        right. split; [intros ->; exact (Hfresh _ Hin)|right; exact Hin].
      * intros [[-> ->]|[Hk [[= E _]|Hin]]];
          [left; reflexivity|congruence|right; exact Hin].
    + rewrite (IH Hn). intuition congruence.
Qed.

(** The entries of a [Map] built from a list, over an accumulator: each key
    holds the value of its last occurrence. *)
Lemma Map_fold_spec es : forall acc,
  NoDup (map fst acc) ->
  let result := foldl (fun acc kv => JS.assoc_set kv.1 kv.2 acc) acc es in
  NoDup (map fst result) /\
  forall k v, In (k, v) result <->
    last (filter (fun e => e.1 = k) es) = Some (k, v) \/
    (filter (fun e => e.1 = k) es = [] /\ In (k, v) acc).
Proof.
  induction es as [|[k' v'] es IH]; intros acc Hn; simpl.
  - split; [exact Hn|]. intros k v. rewrite filter_nil. simpl.
    split; [tauto|]. intros [H|[_ H]]; [discriminate|exact H].
  - destruct (IH (JS.assoc_set k' v' acc) (assoc_set_NoDup k' v' acc Hn)) as [Hnd Hin].
    split; [exact Hnd|]. intros k v. rewrite Hin, (assoc_set_In _ _ _ _ _ Hn).
    rewrite filter_cons. simpl.
    destruct (decide (k' = k)) as [->|Hne].
    + rewrite last_cons.
      destruct (filter (fun e => e.1 = k) es) as [|e l] eqn:E; simpl.
      * intuition congruence.
      * destruct (last (e :: l)) as [z|] eqn:El;
          [|apply last_None in El; discriminate El].
        intuition congruence.
    + intuition congruence.
Qed.

End KeyedInsertion.


Section HistoryMerge.

Import MessageStore.

Lemma filter_entries (k : Z) (l : list Message) :
  filter (fun e : Z * Message => e.1 = k) (map (fun m => (m_id m, m)) l)
  = map (fun m => (m_id m, m)) (filter (fun m => m_id m = k) l).
Proof.
  induction l as [|x l IH]; [reflexivity|]. simpl map at 1.
  rewrite !filter_cons. simpl. rewrite IH.
  destruct (decide (m_id x = k)); reflexivity.
Qed.

Lemma Map_of_messages (combined : list Message) :
  let entries := JS.Map_of (map (fun m => (m_id m, m)) combined) in
  NoDup (map fst entries) /\
  forall k m, In (k, m) entries <->
    k = m_id m /\ last_with_id (m_id m) combined = Some m.
Proof.
  destruct (Map_fold_spec (map (fun m => (m_id m, m)) combined) []
              (NoDup_nil_2)) as [Hn Hin].
  split; [exact Hn|]. intros k m. unfold JS.Map_of. rewrite Hin.
  rewrite filter_entries, fmap_last. unfold last_with_id. split.
  - intros [H|[_ []]].
    destruct (last (filter (fun m0 => m_id m0 = k) combined)) as [m'|] eqn:E;
      [|discriminate].
    simpl in H. injection H as Hk ->. subst k. split; [reflexivity|exact E].
  - intros [-> H]. left. rewrite H. reflexivity.
Qed.

Lemma Map_values_messages (combined : list Message) :
  let values :=
    JS.Map_values (JS.Map_of (map (fun m => (m_id m, m)) combined)) in
  NoDup (map m_id values) /\
  forall m, In m values <-> last_with_id (m_id m) combined = Some m.
Proof.
  destruct (Map_of_messages combined) as [Hn Hin]. simpl. split.
  - replace (map m_id (JS.Map_values (JS.Map_of (map (fun m => (m_id m, m)) combined))))
      with (map fst (JS.Map_of (map (fun m => (m_id m, m)) combined)));
      [exact Hn|].
    unfold JS.Map_values. rewrite map_map. apply map_ext_in.
    intros [k m] Hkm. apply Hin in Hkm as [-> _]. reflexivity.
  - intros m. unfold JS.Map_values. rewrite in_map_iff. split.
    + intros ([k m'] & E & Hkm). simpl in E. subst m'. apply Hin in Hkm. tauto.
    + intros H. exists (m_id m, m). split; [reflexivity|]. apply Hin. tauto.
Qed.

Lemma last_with_id_In (k : Z) (m : Message) (l : list Message) :
  last_with_id k l = Some m -> In m l /\ m_id m = k.
Proof.
  unfold last_with_id. intros H. apply last_Some_elem_of in H.
  apply list_elem_of_filter in H as [Hk Hin]. split; [|exact Hk].
  apply list_elem_of_In, Hin.
Qed.

Lemma mergeHistory_In (pages : list (list Message)) (prev : list Message) (m : Message) :
  In m (mergeHistory pages prev) <->
  last_with_id (m_id m) (concat pages ++ prev) = Some m.
Proof.
  unfold mergeHistory.
  rewrite (Array_sort_In m_id).
  apply (Map_values_messages (concat pages ++ prev)).
Qed.

Lemma mergeHistory_ascending (pages : list (list Message)) (prev : list Message) :
  ascending_ids (mergeHistory pages prev).
Proof.
  unfold ascending_ids, mergeHistory.
  apply (ascending_NoDup_strict m_id).
  - apply (Array_sort_ascending m_id).
  - rewrite (Permutation_map m_id (Array_sort_Permutation m_id _)).
    apply (Map_values_messages (concat pages ++ prev)).
Qed.

Lemma filter_none_above (k : Z) (l : list Message) :
  (forall a, In a l -> k < m_id a) ->
  filter (fun m => m_id m = k) l = [].
Proof.
  induction l as [|x l IH]; intros H; [reflexivity|].
  rewrite filter_cons, decide_False.
  - apply IH. intros a Ha. apply H. now right.
  - specialize (H x (or_introl eq_refl)). lia.
Qed.

(** [dedupe_by_id] on a list that is ascending by id. *)
Lemma dedupe_by_id_In (l : list Message) :
  StronglySorted (fun a b => m_id a <= m_id b) l ->
  forall m, In m (dedupe_by_id l) <-> last_with_id (m_id m) l = Some m.
Proof.
  unfold last_with_id.
  induction l as [|x [|y r] IH]; intros Hs m.
  - split; [intros []|discriminate].
  - simpl dedupe_by_id. rewrite filter_cons, filter_nil.
    destruct (decide (m_id x = m_id m)); simpl.
    + split; [intros [->|[]]; reflexivity | intros [= ->]; tauto].
    + split; [intros [->|[]]; congruence | discriminate].
  - apply StronglySorted_inv in Hs as [Hs Hx].
    specialize (IH Hs m).
    change (dedupe_by_id (x :: y :: r))
      with (if decide (m_id x = m_id y) then dedupe_by_id (y :: r)
            else x :: dedupe_by_id (y :: r)).
    rewrite (filter_cons _ x).
    destruct (decide (m_id x = m_id y)) as [Exy|Nxy].
    + rewrite IH.
      destruct (decide (m_id x = m_id m)) as [Exm|Nxm]; [|reflexivity].
      rewrite (filter_cons _ y), decide_True by congruence.
      rewrite last_cons_cons. reflexivity.
    + simpl In. rewrite IH.
      destruct (decide (m_id x = m_id m)) as [Exm|Nxm].
      * rewrite (filter_none_above (m_id m) (y :: r)).
        2:{ intros a Ha. rewrite List.Forall_forall in Hx.
            pose proof (Hx y (or_introl eq_refl)) as Hxy.
            destruct Ha as [<-|Ha]; [lia|].
            apply StronglySorted_inv in Hs as [_ Hy].
            rewrite List.Forall_forall in Hy. specialize (Hy a Ha). lia. }
        simpl. split; [intros [->|H]; [reflexivity|discriminate H]|].
        intros [= ->]. now left.
      * split; [intros [->|H]; [congruence|exact H]|]. intros H. now right.
Qed.

Lemma dedupe_by_id_subset (l : list Message) (m : Message) :
  In m (dedupe_by_id l) -> In m l.
Proof.
  induction l as [|x [|y r] IH]; [tauto|tauto|].
  change (dedupe_by_id (x :: y :: r))
    with (if decide (m_id x = m_id y) then dedupe_by_id (y :: r)
          else x :: dedupe_by_id (y :: r)).
  destruct (decide (m_id x = m_id y)).
  - intros H. right. apply IH, H.
  - intros [->|H]; [now left|]. right. apply IH, H.
Qed.

Lemma dedupe_by_id_ascending (l : list Message) :
  StronglySorted (fun a b => m_id a <= m_id b) l ->
  ascending_ids (dedupe_by_id l).
Proof.
  unfold ascending_ids.
  induction l as [|x [|y r] IH]; intros Hs.
  - constructor.
  - repeat constructor.
  - apply StronglySorted_inv in Hs as [Hs Hx].
    change (dedupe_by_id (x :: y :: r))
      with (if decide (m_id x = m_id y) then dedupe_by_id (y :: r)
            else x :: dedupe_by_id (y :: r)).
    destruct (decide (m_id x = m_id y)) as [Exy|Nxy]; [apply IH, Hs|].
    constructor; [apply IH, Hs|].
    apply List.Forall_forall. intros a Ha. apply dedupe_by_id_subset in Ha.
    rewrite List.Forall_forall in Hx.
    pose proof (Hx y (or_introl eq_refl)) as Hxy.
    destruct Ha as [<-|Ha]; [lia|].
    apply StronglySorted_inv in Hs as [_ Hy].
    rewrite List.Forall_forall in Hy. specialize (Hy a Ha). lia.
Qed.

Lemma spec_merge_In (incoming existing : list Message) (m : Message) :
  In m (spec_merge incoming existing) <->
  last_with_id (m_id m) (incoming ++ existing) = Some m.
Proof.
  unfold spec_merge, sort_by_id.
  rewrite dedupe_by_id_In by apply (Array_sort_ascending m_id).
  unfold last_with_id. now rewrite (Array_sort_filter m_id).
Qed.

Lemma mergeHistory_refines_spec (pages : list (list Message)) (prev : list Message) :
  mergeHistory pages prev = spec_merge (concat pages) prev.
Proof.
  apply (strict_ext m_id).
  - apply mergeHistory_ascending.
  - apply dedupe_by_id_ascending, (Array_sort_ascending m_id).
  - intros m. now rewrite mergeHistory_In, spec_merge_In.
Qed.

Lemma mergeHistory_ids (pages : list (list Message)) (prev : list Message) (k : Z) :
  In k (map m_id (mergeHistory pages prev)) <->
  In k (map m_id (concat pages ++ prev)).
Proof.
  rewrite !in_map_iff. split.
  - intros (m & <- & Hm). apply mergeHistory_In, last_with_id_In in Hm as [Hm _].
    exists m. tauto.
  - intros (m & <- & Hm).
    destruct (last_with_id (m_id m) (concat pages ++ prev)) as [m'|] eqn:E.
    + pose proof E as E'. apply last_with_id_In in E' as [_ Hid].
      exists m'. split; [exact Hid|]. apply mergeHistory_In. now rewrite Hid.
    + exfalso. unfold last_with_id in E. apply last_None in E.
      apply (filter_nil_not_elem_of _ _ m) in E; [|reflexivity].
      apply E, list_elem_of_In, Hm.
Qed.

End HistoryMerge.

(** *** No duplicate ids along a run *)

Section StoredIds.

Variable Number_ : string -> option Z.
Variable self : option Z.

Lemma ids_add_to (k : Z) (r : Reaction) (l : list Message) :
  map m_id (Reactions.reaction_added k r l) = map m_id l.
Proof.
  unfold Reactions.reaction_added. rewrite map_map. apply map_ext.
  intros m. unfold Reactions.add_to.
  destruct (decide (m_id m = k)); [|reflexivity].
  destruct (existsb _ _); reflexivity.
Qed.

Lemma ids_remove_from (k u : Z) (e : string) (l : list Message) :
  map m_id (Reactions.reaction_removed k u e l) = map m_id l.
Proof.
  unfold Reactions.reaction_removed. rewrite map_map. apply map_ext.
  intros m. unfold Reactions.remove_from.
  destruct (decide (m_id m = k)); reflexivity.
Qed.

Lemma has_id_false (k : Z) (l : list Message) :
  has_id k l = false -> k ∉ map m_id l.
Proof.
  unfold has_id. intros H Hin.
  apply list_elem_of_In, in_map_iff in Hin as (m & E & Hm).
  assert (existsb (fun m0 => bool_decide (m_id m0 = k)) l = true) as Ht.
  { apply existsb_exists. exists m. split; [exact Hm|].
    apply bool_decide_eq_true_2, E. }
  congruence.
Qed.

Lemma NoDup_append_new (message : Message) (l : list Message) :
  NoDup (map m_id l) -> NoDup (map m_id (append_new message l)).
Proof.
  intros Hn. unfold append_new. fold (has_id (m_id message) l).
  destruct (has_id (m_id message) l) eqn:E; [exact Hn|].
  rewrite map_app. apply NoDup_app. split; [exact Hn|]. split.
  - intros k Hk Hk'. apply list_elem_of_singleton in Hk'. subst k.
    exact (has_id_false _ _ E Hk).
  - apply NoDup_singleton.
Qed.

Lemma messages_fires (due : list (positive * Timer)) (st : ChatState) :
  messages (foldl (fun s t => fire t s) st due) = messages st.
Proof.
  revert st. induction due as [|t due IH]; intros st; simpl; [done|].
  now rewrite IH.
Qed.

Lemma NoDup_ids_onMessage (now : Z) (st : ChatState) (data : WebSocketMessage) :
  NoDup (map m_id (messages st)) ->
  NoDup (map m_id (messages (onMessage Number_ self now st data).1)).
Proof.
  intros Hn. unfold onMessage.
  repeat match goal with
         | |- context [if is_type ?d ?s then _ else _] => destruct (is_type d s)
         end; simpl; try exact Hn.
  - destruct (decide (Some (ws_user_id data) = self)); simpl; [exact Hn|].
    unfold typing_updater. destruct (ws_is_typing data); exact Hn.
  - unfold read_receipt. destruct (channelId st); [|exact Hn].
    destruct (viewing Number_ st (ws_channel_id data)); exact Hn.
  - now rewrite ids_add_to.
  - now rewrite ids_remove_from.
  - unfold presence. destruct (channelId st); exact Hn.
  - unfold message_deleted. simpl.
    apply (sublist_NoDup _ (map m_id (messages st))); [exact Hn|].
    apply (fmap_sublist m_id), sublist_filter.
  - destruct (is_type data "new_message" || no_type data); [|exact Hn].
    unfold new_message. simpl. apply NoDup_append_new.
    destruct (ws_parent_id data) as [p|]; [destruct (JS.truthy_num p)|];
      simpl; [rewrite ids_bump|..]; exact Hn.
Qed.

Lemma NoDup_ids_run (inputs : list Input) (st : ChatState) :
  NoDup (map m_id (messages st)) ->
  NoDup (map m_id (messages (run Number_ self st inputs))).
Proof.
  revert st. induction inputs as [|i inputs IH]; intros st Hn; [exact Hn|].
  simpl. apply IH. destruct i as [now data|now|k|pages]; simpl.
  - apply NoDup_ids_onMessage, Hn.
  - unfold run_due. rewrite messages_fires. exact Hn.
  - unfold switchChannel, resetOnChannelChange. simpl.
    destruct (decide (prevChannelIdRef st <> k)); [apply NoDup_nil_2|exact Hn].
  - apply (strict_NoDup m_id), mergeHistory_ascending.
Qed.

End StoredIds.

Section LiveOrder.

Variable Number_ : string -> option Z.
Variable self : option Z.

Lemma ascending_ids_map (l : list Message) :
  ascending_ids l <-> StronglySorted Z.lt (map m_id l).
Proof.
  unfold ascending_ids. induction l as [|x l IH]; simpl.
  - split; constructor.
  - split; intros H; apply StronglySorted_inv in H as [Hs Hx];
      (constructor; [apply IH, Hs|]).
    + exact (proj2 (List.Forall_map m_id (Z.lt (m_id x)) l) Hx).
    + exact (proj1 (List.Forall_map m_id (Z.lt (m_id x)) l) Hx).
Qed.

Lemma ascending_ids_same (l l' : list Message) :
  map m_id l = map m_id l' -> ascending_ids l -> ascending_ids l'.
Proof.
  intros E. rewrite !ascending_ids_map, E. tauto.
Qed.

Lemma ascending_ids_without (k : Z) (l : list Message) :
  ascending_ids l -> ascending_ids (filter (fun m => m_id m <> k) l).
Proof.
  unfold ascending_ids. induction l as [|x l IH]; intros Hs; [constructor|].
  apply StronglySorted_inv in Hs as [Hs Hx]. rewrite filter_cons.
  destruct (decide (m_id x <> k)); [|apply IH, Hs].
  constructor; [apply IH, Hs|].
  apply List.Forall_forall. intros y Hy.
  apply list_elem_of_In, list_elem_of_filter in Hy as [_ Hy].
  rewrite List.Forall_forall in Hx. apply Hx, list_elem_of_In, Hy.
Qed.

Lemma ascending_ids_snoc (l : list Message) (x : Message) :
  ascending_ids l -> Forall (fun m => m_id m < m_id x) l ->
  ascending_ids (l ++ [x]).
Proof.
  unfold ascending_ids. induction l as [|y l IH]; intros Hs Hall; simpl.
  - repeat constructor.
  - apply StronglySorted_inv in Hs as [Hs Hy].
    apply Forall_cons in Hall as [Hyx Hall].
    constructor; [apply IH; assumption|].
    apply List.Forall_app. split; [exact Hy|]. repeat constructor. exact Hyx.
Qed.

Lemma ascending_ids_append_new (message : Message) (l : list Message) :
  ascending_ids l ->
  has_id (m_id message) l = true \/ Forall (fun m => m_id m < m_id message) l ->
  ascending_ids (append_new message l).
Proof.
  intros Hs H. unfold append_new. fold (has_id (m_id message) l).
  destruct (has_id (m_id message) l) eqn:E; [exact Hs|].
  destruct H as [H|H]; [discriminate H|]. apply ascending_ids_snoc; assumption.
Qed.

Lemma ascending_ids_onMessage (now : Z) (st : ChatState) (data : WebSocketMessage) :
  ascending_ids (messages st) ->
  arrives_in_order st (Frame now data) ->
  ascending_ids (messages (onMessage Number_ self now st data).1).
Proof.
  intros Hs Hord. unfold onMessage.
  repeat match goal with
         | |- context [if is_type ?d ?s then _ else _] =>
             destruct (is_type d s) eqn:?
         end; simpl; try exact Hs.
  - destruct (decide (Some (ws_user_id data) = self)); simpl; [exact Hs|].
    unfold typing_updater. destruct (ws_is_typing data); exact Hs.
  - unfold read_receipt. destruct (channelId st); [|exact Hs].
    destruct (viewing Number_ st (ws_channel_id data)); exact Hs.
  - apply (ascending_ids_same (messages st)); [|exact Hs].
    symmetry. apply ids_add_to.
  - apply (ascending_ids_same (messages st)); [|exact Hs].
    symmetry. apply ids_remove_from.
  - unfold presence. destruct (channelId st); exact Hs.
  - apply ascending_ids_without, Hs.
  - simpl in Hord.
    destruct (is_type data "new_message" || no_type data); [|exact Hs].
    specialize (Hord eq_refl). unfold new_message. simpl.
    set (st1 := match ws_parent_id data with
                | Some p => if JS.truthy_num p
                            then setMessages (map (bump_reply_count p)) st
                            else st
                | None => st
                end).
    assert (E : map m_id (messages st) = map m_id (messages st1)).
    { subst st1. destruct (ws_parent_id data) as [p|]; [|reflexivity].
      destruct (JS.truthy_num p); [|reflexivity]. simpl.
      symmetry. apply ids_bump. }
    apply ascending_ids_append_new.
    + apply (ascending_ids_same _ _ E), Hs.
    + simpl. destruct Hord as [H|H].
      * left. rewrite <- H. symmetry. apply has_id_ids, E.
      * right.
        apply (proj1 (List.Forall_map m_id (fun k => k < ws_id data) _)).
        rewrite <- E.
        exact (proj2 (List.Forall_map m_id (fun k => k < ws_id data) _) H).
Qed.

Lemma no_type_is_type (data : WebSocketMessage) (known : string) :
  no_type data = true -> known <> "" -> is_type data known = false.
Proof.
  unfold no_type, is_type, JS.truthy_str. intros H Hk.
  destruct (ws_type data) as [ty|]; [|now apply bool_decide_eq_false_2].
  apply negb_true_iff, negb_false_iff in H.
  apply String.eqb_eq in H. subst ty.
  apply bool_decide_eq_false_2. intros [= E]. now apply Hk.
Qed.

Lemma onMessage_new_message (now : Z) (st : ChatState) (data : WebSocketMessage) :
  is_type data "new_message" || no_type data = true ->
  onMessage Number_ self now st data = new_message Number_ self data st.
Proof.
  intros H. apply orb_true_iff in H as [H|H].
  - unfold is_type in H. apply bool_decide_eq_true in H.
    unfold onMessage, is_type. rewrite H.
    repeat (rewrite bool_decide_eq_false_2 by discriminate).
    now rewrite bool_decide_eq_true_2.
  - unfold onMessage.
    rewrite !(no_type_is_type data) by (assumption || discriminate).
    now rewrite H.
Qed.

(** A live message whose id is not stored goes to the end of the list. *)
Lemma new_message_ids (now : Z) (st : ChatState) (data : WebSocketMessage) :
  is_type data "new_message" || no_type data = true ->
  has_id (ws_id data) (messages st) = false ->
  map m_id (messages (onMessage Number_ self now st data).1)
  = map m_id (messages st) ++ [ws_id data].
Proof.
  intros Hty Hnew. rewrite (onMessage_new_message now st data Hty).
  unfold new_message. simpl.
  set (st1 := match ws_parent_id data with
              | Some p => if JS.truthy_num p
                          then setMessages (map (bump_reply_count p)) st
                          else st
              | None => st
              end).
  assert (E : map m_id (messages st1) = map m_id (messages st)).
  { subst st1. destruct (ws_parent_id data) as [p|]; [|reflexivity].
    destruct (JS.truthy_num p); [|reflexivity]. simpl. apply ids_bump. }
  unfold append_new. simpl. fold (has_id (ws_id data) (messages st1)).
  rewrite (has_id_ids _ _ _ E), Hnew, map_app, E. reflexivity.
Qed.

Lemma ascending_ids_run (inputs : list Input) (st : ChatState) :
  ascending_ids (messages st) ->
  live_in_order Number_ self st inputs ->
  ascending_ids (messages (run Number_ self st inputs)).
Proof.
  revert st. induction inputs as [|i inputs IH]; intros st Hs Hord; [exact Hs|].
  destruct Hord as [Hi Hord]. simpl. apply IH; [|exact Hord].
  destruct i as [now data|now|k|pages]; simpl.
  - apply ascending_ids_onMessage; assumption.
  - unfold run_due. rewrite messages_fires. exact Hs.
  - unfold switchChannel, resetOnChannelChange. simpl.
    destruct (decide (prevChannelIdRef st <> k)); [constructor|exact Hs].
  - apply mergeHistory_ascending.
Qed.

End LiveOrder.

(** C5. The history merge gives [dedupe-by-id(sort-by-id(history ∪
    state))]: the result is strictly ascending by id, so no two stored
    messages share an id, and it holds exactly the ids of the fetched pages
    and of the previous list.  This holds for every previous list, sorted or
    not, so after any run of live events, timers and channel switches a
    history merge leaves the stored list strictly ascending; along every
    run, merges and live events in any order, a list without duplicate ids
    stays without duplicate ids.  A live message whose id is not stored
    goes to the end of the list, whatever its id; so a list that is strictly
    ascending stays so along every run whose live messages arrive in order,
    each with an id that is stored already or above every stored id. *)
Theorem history_merge_sorted_unique :
  forall (pages : list (list Message)) (prev : list Message),
    let merged := MessageStore.mergeHistory pages prev in
    merged = MessageStore.spec_merge (concat pages) prev /\
    ascending_ids merged /\
    NoDup (map m_id merged) /\
    (forall k, In k (map m_id merged) <->
               In k (map m_id (concat pages ++ prev))) /\
    (forall m, In m merged <->
               last_with_id (m_id m) (concat pages ++ prev) = Some m) /\
    (forall Number_ self st inputs,
        messages (run Number_ self st (inputs ++ [History pages]))
          = MessageStore.mergeHistory pages
              (messages (run Number_ self st inputs)) /\
        ascending_ids
          (messages (run Number_ self st (inputs ++ [History pages]))) /\
        (NoDup (map m_id (messages st)) ->
         NoDup (map m_id (messages (run Number_ self st inputs)))) /\
        (forall now data,
            is_type data "new_message" || no_type data = true ->
            has_id (ws_id data) (messages st) = false ->
            map m_id (messages (run Number_ self st [Frame now data]))
            = map m_id (messages st) ++ [ws_id data]) /\
        (ascending_ids (messages st) ->
         live_in_order Number_ self st inputs ->
         ascending_ids (messages (run Number_ self st inputs)))).
Proof.
  intros pages prev merged. subst merged.
  split; [apply mergeHistory_refines_spec|].
  split; [apply mergeHistory_ascending|].
  split; [apply (strict_NoDup m_id), mergeHistory_ascending|].
  split; [apply mergeHistory_ids|].
  split; [apply mergeHistory_In|].
  intros Number_ self st inputs.
  assert (E : messages (run Number_ self st (inputs ++ [History pages]))
              = MessageStore.mergeHistory pages
                  (messages (run Number_ self st inputs))).
  { unfold run. rewrite foldl_app. reflexivity. }
  split; [exact E|]. split; [rewrite E; apply mergeHistory_ascending|].
  split; [apply NoDup_ids_run|].
  split; [intros now data; apply new_message_ids|apply ascending_ids_run].
Qed.

(** A run in which every live message arrives in order: the first page,
    a live message above it, an older page. *)
Lemma history_merge_sorted_unique_witness :
  let inputs :=
    [ History [[Examples.msg 5 None None; Examples.msg 9 None None]];
      Frame 10 (Examples.message_frame (Some "new_message") 12 1 3 None);
      History [[Examples.msg 3 None None]] ] in
  live_in_order Examples.Number_ Examples.me (initial (Some "1")) inputs /\
  ascending_ids
    (messages (run Examples.Number_ Examples.me (initial (Some "1")) inputs)).
Proof.
  assert (Hord : live_in_order Examples.Number_ Examples.me (initial (Some "1"))
            [ History [[Examples.msg 5 None None; Examples.msg 9 None None]];
              Frame 10 (Examples.message_frame (Some "new_message") 12 1 3 None);
              History [[Examples.msg 3 None None]] ]).
  { repeat split. intros _. right. vm_compute.
    repeat constructor. }
  split; [exact Hord|].
  apply (history_merge_sorted_unique [] []); [constructor|exact Hord].
Defined.

(** C5, as the claim states it: a live message is appended where the list
    ends, whatever its id.  After the page with the messages 5 and 9, a
    live message with the id 2 leaves the stored list [5; 9; 2], which is not
    ascending. *)
Lemma late_live_message_is_out_of_order :
  let st := run Examples.Number_ Examples.me (initial (Some "1"))
              [ History [[Examples.msg 5 None None; Examples.msg 9 None None]];
                Frame 10 (Examples.message_frame (Some "new_message") 2 1 3 None) ] in
  map m_id (messages st) = [5; 9; 2] /\
  NoDup (map m_id (messages st)) /\
  ~ ascending_ids (messages st).
Proof.
  split; [reflexivity|]. split.
  - apply (NoDup_ids_run Examples.Number_ Examples.me), NoDup_nil_2.
  - intros H. apply ascending_ids_map in H. vm_compute in H.
    apply StronglySorted_inv in H as [_ H].
    apply Forall_inv_tail, Forall_inv in H. discriminate H.
Qed.

(** ** Reactions *)

Section ObjectValues.

Context {V : Type}.




End ObjectValues.

Section Grouping.

Import Reactions.

Variable self : option Z.









End Grouping.

Section ReactionEvents.

Import Reactions.



Lemma same_pair_self (r : Reaction) : same_pair (r_user_id r) (r_emoji r) r = true.
Proof.
  unfold same_pair. now rewrite !bool_decide_eq_true_2.
Qed.

Lemma reactions_of_add_to (k : Z) (r : Reaction) (m : Message) :
  m_id m = k ->
  reactions_of (add_to k r m)
  = if existsb (same_pair (r_user_id r) (r_emoji r)) (reactions_of m)
    then reactions_of m else reactions_of m ++ [r].
Proof.
  intros Hk. unfold add_to. rewrite decide_True by exact Hk.
  destruct (existsb _ _); reflexivity.
Qed.

Lemma add_to_id (k : Z) (r : Reaction) (m : Message) :
  m_id (add_to k r m) = m_id m.
Proof.
  unfold add_to. destruct (decide (m_id m = k)); [|reflexivity].
  destruct (existsb _ _); reflexivity.
Qed.

Lemma add_to_present (k : Z) (r : Reaction) (m : Message) :
  m_id m = k ->
  existsb (same_pair (r_user_id r) (r_emoji r)) (reactions_of (add_to k r m))
  = true.
Proof.
  intros Hk. rewrite (reactions_of_add_to k r m Hk).
  destruct (existsb _ (reactions_of m)) eqn:E; [exact E|].
  rewrite existsb_app. simpl. rewrite same_pair_self. apply orb_true_r.
Qed.




Lemma filter_absent (u : Z) (e : string) (rs : list Reaction) :
  existsb (same_pair u e) rs = false ->
  List.filter (fun r => negb (same_pair u e r)) rs = rs.
Proof.
  induction rs as [|r rs IH]; simpl; [reflexivity|].
  destruct (same_pair u e r); simpl; [discriminate|].
  intros H. now rewrite IH.
Qed.


End ReactionEvents.

Section ReactionScenario.

Import Reactions.

Lemma reactions_present (p : Reaction -> bool) (m : Message) :
  existsb p (reactions_of m) = true -> m_reactions m = Some (reactions_of m).
Proof.
  unfold reactions_of. destruct (m_reactions m); [reflexivity|discriminate].
Qed.

Lemma m_reactions_add_to (k : Z) (r : Reaction) (m : Message) :
  m_id m = k ->
  m_reactions (add_to k r m) = Some (reactions_of (add_to k r m)).
Proof.
  intros Hk. unfold add_to. rewrite decide_True by exact Hk.
  destruct (existsb _ _) eqn:E; [|reflexivity].
  apply (reactions_present _ _ E).
Qed.




End ReactionScenario.



(** ** Typing indicator *)

Section Typing.

Variable Number_ : string -> option Z.
Variable self : option Z.

Lemma typing_inv_same (st st' : ChatState) :
  typingUsers st' = typingUsers st ->
  typingTimeoutRef st' = typingTimeoutRef st ->
  timers st' = timers st ->
  next_timer st' = next_timer st ->
  typing_inv st -> typing_inv st'.
Proof.
  intros E1 E2 E3 E4 [H1 H2 H3 H4 H5].
  split; rewrite ?E1, ?E2, ?E3, ?E4; assumption.
Qed.

Lemma typing_inv_initial (cid : option string) : typing_inv (initial cid).
Proof.
  split; simpl.
  - intros u e H. rewrite lookup_empty in H. discriminate.
  - intros h t [].
  - intros u h H. rewrite lookup_empty in H. discriminate.
  - intros u u' h H. rewrite lookup_empty in H. discriminate.
  - intros h t [].
Qed.

Lemma clearTimeout_In (h0 h : positive) (t : Timer) (ts : list (positive * Timer)) :
  In (h, t) (clearTimeout h0 ts) <-> In (h, t) ts /\ h <> h0.
Proof.
  unfold clearTimeout. rewrite <- !list_elem_of_In, list_elem_of_filter.
  simpl. tauto.
Qed.

(** What [cancel_for] keeps: the pending timers of the other users. *)
Lemma cancel_for_In (st : ChatState) (u : Z) (h : positive) (t : Timer) :
  typing_inv st ->
  (In (h, t) (cancel_for u st) <-> In (h, t) (timers st) /\ timer_user t <> u).
Proof.
  intros Hinv. unfold cancel_for.
  destruct (typingTimeoutRef st !! u) as [h0|] eqn:E.
  - rewrite clearTimeout_In. split; intros [Hin Hne]; (split; [exact Hin|]).
    + intros Hu. apply Hne. pose proof (inv_timer_ref st Hinv h t Hin) as Hr.
      rewrite Hu, E in Hr. congruence.
    + intros ->. apply Hne.
      apply (inv_ref_inj st Hinv _ _ h0 (inv_timer_ref st Hinv h0 t Hin) E).
  - split; [|tauto]. intros Hin. split; [exact Hin|].
    intros Hu. pose proof (inv_timer_ref st Hinv h t Hin) as Hr.
    rewrite Hu, E in Hr. discriminate.
Qed.

Lemma typing_inv_updater (now : Z) (data : WebSocketMessage) (st : ChatState) :
  typing_inv st -> typing_inv (typing_updater now data st).
Proof.
  intros Hinv. unfold typing_updater.
  set (u := ws_user_id data).
  destruct (ws_is_typing data); split; simpl.
  - intros u' e. destruct (decide (u = u')) as [<-|Hne].
    + rewrite !lookup_insert_eq. intros [= <-]. exists (next_timer st).
      split; [reflexivity|]. apply in_or_app. right. now left.
    + rewrite !lookup_insert_ne by exact Hne. intros Hu'.
      destruct (inv_entry st Hinv u' e Hu') as (h & Hr & Hin).
      exists h. split; [exact Hr|]. apply in_or_app. left.
      apply (cancel_for_In st u h _ Hinv). split; [exact Hin|]. simpl. congruence.
  - intros h t Hin. apply in_app_or in Hin as [Hin|[[= <- _]|[]]]; [|lia].
    apply (cancel_for_In st u h t Hinv) in Hin as [Hin _].
    pose proof (inv_timer_fresh st Hinv h t Hin). lia.
  - intros u' h. destruct (decide (u = u')) as [<-|Hne].
    + rewrite lookup_insert_eq. intros [= <-]. lia.
    + rewrite lookup_insert_ne by exact Hne. intros Hr.
      pose proof (inv_ref_fresh st Hinv u' h Hr). lia.
  - intros u1 u2 h.
    destruct (decide (u = u1)) as [<-|N1], (decide (u = u2)) as [<-|N2];
      rewrite ?lookup_insert_eq, ?lookup_insert_ne by assumption.
    + reflexivity.
    + intros [= <-] Hr. pose proof (inv_ref_fresh st Hinv u2 _ Hr). lia.
    + intros Hr [= <-]. pose proof (inv_ref_fresh st Hinv u1 _ Hr). lia.
    + apply (inv_ref_inj st Hinv).
  - intros h t Hin. apply in_app_or in Hin as [Hin|[[= <- <-]|[]]].
    + apply (cancel_for_In st u h t Hinv) in Hin as [Hin Hne].
      rewrite lookup_insert_ne by congruence.
      apply (inv_timer_ref st Hinv h t Hin).
    + simpl. apply lookup_insert_eq.
  - intros u' e. destruct (decide (u = u')) as [<-|Hne].
    + rewrite lookup_delete_eq. discriminate.
    + rewrite lookup_delete_ne by exact Hne. intros Hu'.
      destruct (inv_entry st Hinv u' e Hu') as (h & Hr & Hin).
      exists h. split; [exact Hr|].
      apply (cancel_for_In st u h _ Hinv). split; [exact Hin|]. simpl. congruence.
  - intros h t Hin. apply (cancel_for_In st u h t Hinv) in Hin as [Hin _].
    apply (inv_timer_fresh st Hinv h t Hin).
  - apply (inv_ref_fresh st Hinv).
  - apply (inv_ref_inj st Hinv).
  - intros h t Hin. apply (cancel_for_In st u h t Hinv) in Hin as [Hin _].
    apply (inv_timer_ref st Hinv h t Hin).
Qed.

Lemma fires_fields (due : list (positive * Timer)) (st : ChatState) :
  typingTimeoutRef (foldl (fun s t => fire t s) st due) = typingTimeoutRef st /\
  timers (foldl (fun s t => fire t s) st due) = timers st /\
  next_timer (foldl (fun s t => fire t s) st due) = next_timer st.
Proof.
  revert st. induction due as [|t due IH]; intros st; simpl; [tauto|].
  destruct (IH (fire t st)) as (E1 & E2 & E3). rewrite E1, E2, E3. tauto.
Qed.

Lemma fires_typingUsers (due : list (positive * Timer)) (st : ChatState)
    (u : Z) (e : TypingEntry) :
  typingUsers (foldl (fun s t => fire t s) st due) !! u = Some e <->
  typingUsers st !! u = Some e /\ forall t, In t due -> timer_user t.2 <> u.
Proof.
  revert st. induction due as [|t due IH]; intros st; simpl.
  - split; [intros H; split; [exact H|tauto] | tauto].
  - rewrite IH. unfold fire at 1. simpl. split.
    + intros [Hd Hrest].
      destruct (decide (timer_user t.2 = u)) as [E|N].
      * rewrite E, lookup_delete_eq in Hd. discriminate.
      * rewrite lookup_delete_ne in Hd by exact N. split; [exact Hd|].
        intros t' [<-|Hin]; [exact N|apply Hrest, Hin].
    + intros [Hu Hall]. split.
      * rewrite lookup_delete_ne; [exact Hu|]. apply Hall. now left.
      * intros t' Hin. apply Hall. now right.
Qed.

Lemma typing_inv_run_due (now : Z) (st : ChatState) :
  typing_inv st ->
  typing_inv (run_due now st) /\
  forall u e, typingUsers (run_due now st) !! u = Some e ->
              now < timestamp e + 5000.
Proof.
  intros Hinv. unfold run_due.
  set (due := filter (fun t => deadline t.2 <= now) (timers st)).
  set (pending := filter (fun t => ~ deadline t.2 <= now) (timers st)).
  set (st0 := set_timers (typingTimeoutRef st) pending (next_timer st) st).
  destruct (fires_fields due st0) as (E1 & E2 & E3).
  assert (Hpending : forall h t, In (h, t) pending <->
                       In (h, t) (timers st) /\ ~ deadline t <= now).
  { intros h t. subst pending.
    rewrite <- !list_elem_of_In, list_elem_of_filter. simpl. tauto. }
  assert (Hdue : forall h t, In (h, t) due <->
                   In (h, t) (timers st) /\ deadline t <= now).
  { intros h t. subst due.
    rewrite <- !list_elem_of_In, list_elem_of_filter. simpl. tauto. }
  assert (Hkept : forall u e,
             typingUsers (foldl (fun s t => fire t s) st0 due) !! u = Some e ->
             exists h, typingTimeoutRef st !! u = Some h /\
               In (h, {| deadline := timestamp e + 5000; timer_user := u |}) pending).
  { intros u e Hu. apply fires_typingUsers in Hu as [Hu Hnot]. simpl in Hu.
    destruct (inv_entry st Hinv u e Hu) as (h & Hr & Hin).
    exists h. split; [exact Hr|]. apply Hpending. split; [exact Hin|].
    simpl. intros Hle.
    apply (Hnot (h, {| deadline := timestamp e + 5000; timer_user := u |}));
      [|reflexivity].
    apply Hdue. split; [exact Hin|exact Hle]. }
  split; [split|].
  - rewrite E1, E2. exact Hkept.
  - rewrite E2, E3. simpl. intros h t Hin. apply Hpending in Hin as [Hin _].
    apply (inv_timer_fresh st Hinv h t Hin).
  - rewrite E1, E3. simpl. apply (inv_ref_fresh st Hinv).
  - rewrite E1. simpl. apply (inv_ref_inj st Hinv).
  - rewrite E1, E2. simpl. intros h t Hin. apply Hpending in Hin as [Hin _].
    apply (inv_timer_ref st Hinv h t Hin).
  - intros u e Hu. destruct (Hkept u e Hu) as (h & _ & Hin).
    apply Hpending in Hin as [_ Hlate]. simpl in Hlate. lia.
Qed.

Lemma typing_inv_onMessage (now : Z) (st : ChatState) (data : WebSocketMessage) :
  typing_inv st -> typing_inv (onMessage Number_ self now st data).1.
Proof.
  intros Hinv. unfold onMessage.
  repeat match goal with
         | |- context [if is_type ?d ?s then _ else _] => destruct (is_type d s)
         end; simpl; try exact Hinv.
  - destruct (decide (Some (ws_user_id data) = self)); simpl; [exact Hinv|].
    apply typing_inv_updater, Hinv.
  - unfold read_receipt. destruct (channelId st); [|exact Hinv].
    destruct (viewing Number_ st (ws_channel_id data)); [|exact Hinv].
    revert Hinv. apply typing_inv_same; reflexivity.
  - revert Hinv. apply typing_inv_same; reflexivity.
  - revert Hinv. apply typing_inv_same; reflexivity.
  - revert Hinv. apply typing_inv_same; reflexivity.
  - unfold presence. destruct (channelId st); [|exact Hinv].
    revert Hinv. apply typing_inv_same; reflexivity.
  - revert Hinv. apply typing_inv_same; reflexivity.
  - destruct (is_type data "new_message" || no_type data); [|exact Hinv].
    revert Hinv. apply typing_inv_same; unfold new_message; simpl;
      (destruct (ws_parent_id data) as [p|]; [destruct (JS.truthy_num p)|];
       reflexivity).
Qed.

Lemma typing_inv_step (st : ChatState) (i : Input) :
  typing_inv st -> typing_inv (step Number_ self st i).
Proof.
  intros Hinv. destruct i as [now data|now|k|pages]; simpl.
  - apply typing_inv_onMessage, Hinv.
  - apply typing_inv_run_due, Hinv.
  - revert Hinv. apply typing_inv_same;
      unfold switchChannel, resetOnChannelChange; simpl;
      destruct (decide (prevChannelIdRef st <> k)); reflexivity.
  - revert Hinv. apply typing_inv_same; reflexivity.
Qed.

Lemma typing_inv_run (inputs : list Input) (st : ChatState) :
  typing_inv st -> typing_inv (run Number_ self st inputs).
Proof.
  revert st. induction inputs as [|i inputs IH]; intros st Hinv; [exact Hinv|].
  simpl. apply IH, typing_inv_step, Hinv.
Qed.

End Typing.

(** C7. In every state the component can reach, for a [typing] frame:
    a frame from the user's own id is ignored; a stop signal from another
    user removes that user's entry at once and leaves no pending expiry
    timer of that user; a start signal stores the entry stamped with the
    time of the signal.  And whenever the timers that are due have run, every
    entry still shown was last signalled less than 5000 ms ago. *)
Theorem typing_entries_expire :
  forall (Number_ : string -> option Z) (self : option Z)
         (cid : option string) (inputs : list Input)
         (st : ChatState) (now : Z) (data : WebSocketMessage),
    st = run Number_ self (initial cid) inputs ->
    ws_type data = Some "typing" ->
    let user_id := ws_user_id data in
    let st' := (onMessage Number_ self now st data).1 in
    (Some user_id = self -> onMessage Number_ self now st data = (st, [])) /\
    (Some user_id <> self -> ws_is_typing data = false ->
       typingUsers st' !! user_id = None /\
       forall h t, In (h, t) (timers st') -> timer_user t <> user_id) /\
    (Some user_id <> self -> ws_is_typing data = true ->
       typingUsers st' !! user_id
         = Some {| name := JS.str_or (ws_full_name data) (ws_username data);
                   timestamp := now |} /\
       exists h, typingTimeoutRef st' !! user_id = Some h /\
         In (h, {| deadline := now + 5000; timer_user := user_id |}) (timers st')) /\
    (forall later u e,
       typingUsers (run_due later st) !! u = Some e ->
       later < timestamp e + 5000).
Proof.
  intros Number_ self cid inputs st now data Hst Hty user_id st'.
  assert (Hinv : typing_inv st).
  { subst st. apply typing_inv_run, typing_inv_initial. }
  assert (Hdispatch : Some user_id <> self ->
            st' = typing_updater now data st).
  { intros Hne. subst st'. unfold onMessage, is_type. rewrite Hty.
    rewrite bool_decide_eq_true_2 by reflexivity.
    fold user_id. now rewrite decide_False. }
  split; [|split; [|split]].
  - intros Hself. unfold onMessage, is_type. rewrite Hty.
    rewrite bool_decide_eq_true_2 by reflexivity.
    fold user_id. now rewrite decide_True.
  - intros Hne Hstop. rewrite (Hdispatch Hne).
    unfold typing_updater. rewrite Hstop. simpl. fold user_id. split.
    + apply lookup_delete_eq.
    + intros h t Hin. apply (cancel_for_In st user_id h t Hinv) in Hin. tauto.
  - intros Hne Hstart. rewrite (Hdispatch Hne).
    unfold typing_updater. rewrite Hstart. simpl. fold user_id. split.
    + apply lookup_insert_eq.
    + exists (next_timer st). split; [apply lookup_insert_eq|].
      apply in_or_app. right. now left.
  - intros later. apply typing_inv_run_due, Hinv.
Qed.

Lemma typing_entries_expire_witness :
  let stop := Examples.typing_frame 7 "Alice" false in
  typingUsers Examples.typing7 !! 7
    = Some {| name := "Alice"; timestamp := 1000 |} /\
  typingUsers (onMessage Examples.Number_ Examples.me 2000 Examples.typing7 stop).1
    !! 7 = None /\
  typingUsers (run_due 6000 Examples.typing7) !! 7 = None.
Proof.
  split; [reflexivity|].
  pose proof (typing_entries_expire Examples.Number_ Examples.me (Some "1")
                [ History [[Examples.msg 1 (Some 0) (Some [])]];
                  Frame 1000 (Examples.typing_frame 7 "Alice" true) ]
                Examples.typing7 2000 (Examples.typing_frame 7 "Alice" false)
                eq_refl eq_refl) as (_ & Hstop & _ & Hexp).
  split.
  - apply Hstop; [discriminate|reflexivity].
  - destruct (typingUsers (run_due 6000 Examples.typing7) !! 7) as [e|] eqn:E;
      [|reflexivity].
    exfalso. pose proof (Hexp 6000 7 e E) as Hlt.
    assert (He : timestamp e = 1000).
    { revert E. vm_compute. discriminate. }
    lia.
Defined.

(** * Further properties of the chat page *)

(** ** The unread separator *)

Section UnreadSeparator.

Variable self : option Z.
Variable initialLastReadId : option Z.

Lemma no_separator_above (p : Message) (msgs : list Message) :
  JS.num_or initialLastReadId 0 < m_id p ->
  Forall (fun m => JS.num_or initialLastReadId 0 < m_id m) msgs ->
  separator_count (unreadSeparators self initialLastReadId (Some p) msgs) = 0%nat.
Proof.
  revert p. induction msgs as [|m rest IH]; intros p Hp Hall; [reflexivity|].
  apply Forall_cons in Hall as [Hm Hrest].
  unfold separator_count in *. simpl.
  unfold showUnreadSeparator at 1.
  rewrite (bool_decide_eq_false_2 (m_id p <= _)) by lia.
  rewrite andb_false_r. simpl. apply IH; assumption.
Qed.

Lemma separator_at_most_once (prev : option Message) (msgs : list Message) :
  ascending_ids msgs ->
  (separator_count (unreadSeparators self initialLastReadId prev msgs) <= 1)%nat.
Proof.
  revert prev. induction msgs as [|m rest IH]; intros prev Hs;
    [unfold separator_count; simpl; lia|].
  apply StronglySorted_inv in Hs as [Hs Hm].
  destruct (decide (JS.num_or initialLastReadId 0 < m_id m)) as [Habove|Hbelow].
  - unfold separator_count. simpl.
    pose proof (no_separator_above m rest Habove) as H0.
    unfold separator_count in H0. rewrite List.Forall_forall in Hm.
    destruct (showUnreadSeparator self initialLastReadId prev m); simpl;
      rewrite H0; try lia;
      apply List.Forall_forall; intros x Hx; specialize (Hm x Hx); lia.
  - unfold separator_count. simpl. unfold showUnreadSeparator at 1.
    rewrite (bool_decide_eq_false_2 (m_id m > _)) by lia.
    rewrite andb_false_r. simpl. apply (IH (Some m) Hs).
Qed.

(** X1. In a message list that is ascending by id at most one message
    shows the "new messages" separator; it is a message of someone else
    whose id is above the frozen last-read id, every message before it is at
    or below that id, and if no last-read id is frozen none is shown. *)
Theorem unread_separator_unique :
  forall (msgs : list Message),
    ascending_ids msgs ->
    (separator_count (unreadSeparators self initialLastReadId None msgs) <= 1)%nat /\
    (forall before msg after,
        msgs = before ++ msg :: after ->
        showUnreadSeparator self initialLastReadId (last before) msg = true ->
        Some (m_user_id msg) <> self /\
        JS.num_or initialLastReadId 0 < m_id msg /\
        Forall (fun m => m_id m <= JS.num_or initialLastReadId 0) before) /\
    (JS.num_or initialLastReadId 0 <= 0 ->
     separator_count (unreadSeparators self initialLastReadId None msgs) = 0%nat).
Proof.
  intros msgs Hs. split; [apply separator_at_most_once, Hs|]. split.
  - intros before msg after E Hshow. unfold showUnreadSeparator in Hshow.
    apply andb_true_iff in Hshow as [Hshow Hsent].
    apply andb_true_iff in Hshow as [Hshow Hprev].
    apply andb_true_iff in Hshow as [_ Hid].
    apply bool_decide_eq_true in Hid.
    split; [|split; [lia|]].
    + intros Hself. rewrite (bool_decide_eq_true_2 _ Hself) in Hsent.
      discriminate.
    + apply List.Forall_forall. intros x Hx.
      destruct (last before) as [p|] eqn:Hl.
      * apply bool_decide_eq_true in Hprev.
        apply last_Some in Hl as [l' ->].
        apply in_app_or in Hx as [Hx|[<-|[]]]; [|exact Hprev].
        subst msgs. rewrite <- !app_assoc in Hs. simpl in Hs.
        assert (Hsorted : StronglySorted (fun a b => m_id a < m_id b)
                            (l' ++ [p])).
        { clear -Hs. unfold ascending_ids in Hs.
          induction l' as [|y l' IH]; simpl in *.
          - repeat constructor.
          - apply StronglySorted_inv in Hs as [Hs Hy]. constructor.
            + apply IH, Hs.
            + rewrite List.Forall_forall in Hy. apply List.Forall_forall.
              intros z Hz. apply Hy. apply in_app_or in Hz as [Hz|[<-|[]]];
                apply in_or_app; [now left|right; now left]. }
        clear -Hsorted Hx Hprev.
        induction l' as [|y l' IH]; [destruct Hx|].
        simpl in Hsorted. apply StronglySorted_inv in Hsorted as [Hs' Hy].
        destruct Hx as [<-|Hx]; [|apply IH; assumption].
        rewrite List.Forall_forall in Hy.
        assert (m_id y < m_id p) by (apply Hy, in_or_app; right; now left).
        lia.
      * apply last_None in Hl. subst before. destruct Hx.
  - intros Hzero. clear Hs. generalize (@None Message).
    induction msgs as [|m rest IH]; intros prev; [reflexivity|].
    unfold separator_count in *. simpl. unfold showUnreadSeparator at 1.
    rewrite (bool_decide_eq_false_2 (_ > 0)) by lia. simpl. apply IH.
Qed.

End UnreadSeparator.

Lemma unread_separator_unique_witness :
  let msgs := [Examples.msg 1 None None; Examples.msg 2 None None;
               Examples.msg 3 None None] in
  ascending_ids msgs /\
  unreadSeparators Examples.me (Some 1) None msgs = [false; true; false] /\
  le (separator_count (unreadSeparators Examples.me (Some 1) None msgs)) 1.
Proof.
  assert (Hs : ascending_ids [Examples.msg 1 None None; Examples.msg 2 None None;
                              Examples.msg 3 None None]).
  { unfold ascending_ids. repeat constructor; simpl; lia. }
  split; [exact Hs|]. split; [reflexivity|].
  exact (proj1 (unread_separator_unique Examples.me (Some 1) _ Hs)).
Defined.

(** ** Read marks *)



(** ** Reaction clicks *)

Lemma find_map_same_id (f : Message -> Message) (k : Z) (l : list Message) :
  (forall m, m_id (f m) = m_id m) ->
  List.find (fun m => bool_decide (m_id m = k)) (map f l)
  = f <$> List.find (fun m => bool_decide (m_id m = k)) l.
Proof.
  intros Hf. induction l as [|x l IH]; [reflexivity|]. simpl. rewrite Hf.
  destruct (bool_decide (m_id x = k)); [reflexivity|exact IH].
Qed.

Lemma find_has_id (k : Z) (l : list Message) :
  has_id k l = true ->
  exists m, List.find (fun m => bool_decide (m_id m = k)) l = Some m /\ m_id m = k.
Proof.
  unfold has_id. induction l as [|x l IH]; simpl; [discriminate|].
  destruct (bool_decide (m_id x = k)) eqn:E.
  - intros _. exists x. split; [reflexivity|]. now apply bool_decide_eq_true in E.
  - simpl. exact IH.
Qed.

Lemma my_reaction_same_pair (me : Z) (e : string) (rs : list Reaction) :
  existsb (fun r => bool_decide (Some (r_user_id r) = Some me)
                    && bool_decide (r_emoji r = e)) rs
  = existsb (Reactions.same_pair me e) rs.
Proof.
  induction rs as [|r rs IH]; [reflexivity|]. simpl. rewrite IH. f_equal.
  unfold Reactions.same_pair. f_equal.
  destruct (decide (r_user_id r = me)) as [E|N].
  - now rewrite !bool_decide_eq_true_2 by congruence.
  - now rewrite !bool_decide_eq_false_2 by congruence.
Qed.

Lemma existsb_filter_negb {A} (p : A -> bool) (l : list A) :
  existsb p (List.filter (fun x => negb (p x)) l) = false.
Proof.
  induction l as [|x l IH]; [reflexivity|]. simpl.
  destruct (p x) eqn:E; simpl; [exact IH|]. now rewrite E.
Qed.

(** X3. The reaction button follows the store: after the echo
    [reaction_added] of the user's own reaction on a loaded message a click
    on that emoji asks to delete it, after the echo [reaction_removed] a
    click asks to post it, and for a message that is not loaded no request
    is made. *)
Theorem reaction_click_follows_echo :
  forall (me : Z) (msgs : list Message) (message_id : Z) (reaction : Reaction),
    r_user_id reaction = me ->
    (has_id message_id msgs = true ->
       handleReactionClick (Some me)
         (Reactions.reaction_added message_id reaction msgs)
         message_id (r_emoji reaction)
       = Some (DeleteReaction message_id (r_emoji reaction)) /\
       handleReactionClick (Some me)
         (Reactions.reaction_removed message_id me (r_emoji reaction) msgs)
         message_id (r_emoji reaction)
       = Some (PostReaction message_id (r_emoji reaction))) /\
    (has_id message_id msgs = false ->
       forall self emoji, handleReactionClick self msgs message_id emoji = None).
Proof.
  intros me msgs k r Hme. split.
  - intros Hk. destruct (find_has_id k msgs Hk) as (m & Hfind & Hid).
    unfold handleReactionClick, Reactions.reaction_added,
      Reactions.reaction_removed.
    rewrite !find_map_same_id, Hfind.
    2:{ intros x. unfold Reactions.remove_from.
        destruct (decide (m_id x = k)); reflexivity. }
    2:{ intros x. apply add_to_id. }
    simpl. split.
    + rewrite (m_reactions_add_to k r m Hid), my_reaction_same_pair.
      rewrite <- Hme. now rewrite (add_to_present k r m Hid).
    + unfold Reactions.remove_from. rewrite decide_True by exact Hid. simpl.
      now rewrite my_reaction_same_pair, existsb_filter_negb.
  - intros Hk self emoji. unfold handleReactionClick.
    destruct (List.find _ msgs) as [m|] eqn:Hfind; [|reflexivity].
    apply find_some in Hfind as [Hin Hid].
    assert (has_id k msgs = true); [|congruence].
    unfold has_id. apply existsb_exists. eauto.
Qed.

Lemma reaction_click_follows_echo_witness :
  handleReactionClick Examples.me
    (Reactions.reaction_added 1 (Examples.thumbs 1) (messages Examples.open1))
    1 "+1" = Some (DeleteReaction 1 "+1") /\
  handleReactionClick Examples.me (messages Examples.open1) 1 "+1"
    = Some (PostReaction 1 "+1").
Proof.
  split; [|reflexivity].
  apply (proj1 (reaction_click_follows_echo 1 (messages Examples.open1) 1
                  (Examples.thumbs 1) eq_refl)).
  reflexivity.
Defined.

(** ** File drag and drop *)

(** X4. Over every sequence of drag events the nesting counter is never
    negative and the drop overlay is shown exactly while it is positive;
    the send dialog is open only with a dropped file at hand, and a drop
    always ends the drag. *)
Theorem drag_overlay_tracks_counter :
  forall (events : list DragEvent),
    let d := foldl drag_step drag_initial events in
    0 <= dragCounter d /\
    isDragging d = bool_decide (0 < dragCounter d) /\
    (isSendModalOpen d = true -> is_Some (droppedFile d)) /\
    (forall files, isDragging (drag_step d (Drop files)) = false /\
                   dragCounter (drag_step d (Drop files)) = 0).
Proof.
  intros events.
  assert (Hinv : forall d, 0 <= dragCounter d /\
                   isDragging d = bool_decide (0 < dragCounter d) /\
                   (isSendModalOpen d = true -> is_Some (droppedFile d)) ->
                 forall e, let d' := drag_step d e in
                   0 <= dragCounter d' /\
                   isDragging d' = bool_decide (0 < dragCounter d') /\
                   (isSendModalOpen d' = true -> is_Some (droppedFile d'))).
  { intros d (H0 & Hd & Hm) e. destruct e as [[|]| |[|]|[|f fs]]; simpl;
      unfold handleDragEnter, handleDragLeave, handleDrop; simpl;
      try (repeat split; assumption).
    - destruct (decide (dragCounter d + 1 = 1)) as [E|N]; simpl.
      + repeat split; try lia; try assumption.
        symmetry. apply bool_decide_eq_true_2. lia.
      + repeat split; try lia; try assumption. rewrite Hd.
        apply bool_decide_ext. lia.
    - destruct (decide (dragCounter d - 1 <= 0)) as [E|N]; simpl.
      + repeat split; try lia; assumption.
      + repeat split; try lia; try assumption. rewrite Hd.
        apply bool_decide_ext. lia.
    - repeat split; try lia; assumption.
    - repeat split; try lia. intros _. eauto. }
  assert (Hrun : forall d, 0 <= dragCounter d /\
                   isDragging d = bool_decide (0 < dragCounter d) /\
                   (isSendModalOpen d = true -> is_Some (droppedFile d)) ->
                 let d' := foldl drag_step d events in
                 0 <= dragCounter d' /\
                 isDragging d' = bool_decide (0 < dragCounter d') /\
                 (isSendModalOpen d' = true -> is_Some (droppedFile d'))).
  { induction events as [|e events IH]; intros d Hd; [exact Hd|].
    simpl. apply IH, Hinv, Hd. }
  intros d. destruct (Hrun drag_initial) as (H0 & Hd & Hm).
  { simpl. repeat split; [lia|discriminate]. }
  repeat split; try assumption; destruct files; reflexivity.
Qed.

(** ** Last seen *)

(** X5. For a valid last-seen instant the label depends only on the
    elapsed milliseconds: under a minute (also for an instant in the future)
    "just now"; then 1 to 59 minutes; then 1 to 23 hours; then 1 to 6 days;
    from seven days on the date.  A missing value reads "offline". *)
Theorem last_seen_buckets :
  forall (now date : Z),
    let d := now - date in
    formatLastSeen now None = Offline /\
    match formatLastSeen now (Some (Some date)) with
    | Offline => False
    | JustNow => d < 60000
    | MinsAgo n => 60000 <= d < 3600000 /\ 1 <= n <= 59 /\ n = d / 60000
    | HoursAgo n => 3600000 <= d < 86400000 /\ 1 <= n <= 23 /\ n = d / 3600000
    | DaysAgo n => 86400000 <= d < 604800000 /\ 1 <= n <= 6 /\ n = d / 86400000
    | LocaleDate x => 604800000 <= d /\ x = Some date
    end.
Proof.
  intros now date d. split; [reflexivity|].
  unfold formatLastSeen. fold d.
  pose proof (Z.div_mod d 60000 ltac:(lia)).
  pose proof (Z.mod_pos_bound d 60000 ltac:(lia)).
  pose proof (Z.div_mod d 3600000 ltac:(lia)).
  pose proof (Z.mod_pos_bound d 3600000 ltac:(lia)).
  pose proof (Z.div_mod d 86400000 ltac:(lia)).
  pose proof (Z.mod_pos_bound d 86400000 ltac:(lia)).
  repeat case_decide; repeat split; lia.
Qed.

(** ** The message input *)

Lemma append_cons (x : ascii) (a b : string) :
  String.append (String x a) b = String x (String.append a b).
Proof. reflexivity. Qed.

Lemma append_nil_r (a : string) : String.append a "" = a.
Proof.
  induction a as [|x a IH]; [reflexivity|]. now rewrite append_cons, IH.
Qed.

Lemma append_assoc (a b c : string) :
  String.append (String.append a b) c = String.append a (String.append b c).
Proof.
  induction a as [|x a IH]; [reflexivity|]. now rewrite !append_cons, IH.
Qed.

Lemma drop_prefix_append (a b : string) :
  Layout.drop_prefix a (String.append a b) = Some b.
Proof.
  induction a as [|x a IH]; [now destruct b|].
  rewrite append_cons. simpl. now rewrite decide_True.
Qed.

Lemma last_char_snoc (s : string) (c : ascii) :
  last_char (String.append s (String c EmptyString)) = Some c.
Proof.
  induction s as [|a s IH]; [reflexivity|]. rewrite append_cons.
  destruct (String.append s (String c EmptyString)) eqn:E.
  - destruct s; discriminate E.
  - exact IH.
Qed.

(** X6. A mention keeps what was typed, puts ["@username "] at its end, and
    the ["@"] stands at the start of the input or right after a space. *)
Theorem mention_is_separated :
  forall (username prev : string),
    exists before,
      handleMention username prev
        = String.append before
            (String.append "@" (String.append username " ")) /\
      Layout.drop_prefix prev before <> None /\
      (before = "" \/ endsWith_space before = true) /\
      endsWith_space (handleMention username prev) = true.
Proof.
  intros username prev.
  pose proof drop_prefix_append as Hprefix.
  assert (Hend : endsWith_space (handleMention username prev) = true).
  { unfold handleMention, endsWith_space.
    replace (String.append prev (String.append _ (String.append "@"
               (String.append username " "))))
      with (String.append (String.append prev (String.append
               (if endsWith_space prev then ""
                else if decide (0 < String.length prev)%nat then " " else "")
               (String.append "@" username))) " ").
    - now rewrite last_char_snoc, bool_decide_eq_true_2.
    - rewrite !append_assoc. reflexivity. }
  unfold handleMention in *.
  destruct (endsWith_space prev) eqn:E.
  - exists prev. split; [reflexivity|]. split; [|split; [now right|exact Hend]].
    rewrite <- (append_nil_r prev) at 2. now rewrite Hprefix.
  - destruct (decide (0 < String.length prev)%nat) as [Hlen|Hlen].
    + exists (String.append prev " ").
      split; [now rewrite append_assoc|]. split; [now rewrite Hprefix|].
      split; [|exact Hend]. right. unfold endsWith_space.
      now rewrite last_char_snoc, bool_decide_eq_true_2.
    + exists "". destruct prev; [|simpl in Hlen; lia].
      split; [reflexivity|]. split; [discriminate|]. split; [now left|exact Hend].
Qed.

Section TypingDebounce.

Variable trim : string -> string.

Lemma typing_signals_app (a b : list Outgoing) :
  typing_signals (a ++ b) = typing_signals a ++ typing_signals b.
Proof. unfold typing_signals. apply omap_app. Qed.

Lemma double_start_snoc (l : list bool) (b : bool) :
  double_start (l ++ [b])
  = double_start l || (b && bool_decide (last l = Some true)).
Proof.
  induction l as [|x [|y l] IH].
  - destruct b; reflexivity.
  - destruct x, b; reflexivity.
  - change ((x :: y :: l) ++ [b]) with (x :: (y :: l) ++ [b]).
    rewrite last_cons_cons.
    destruct x.
    + change (double_start (true :: (y :: l) ++ [b]))
        with (match (y :: l) ++ [b] with
              | true :: _ => true
              | _ => double_start ((y :: l) ++ [b])
              end).
      change (double_start (true :: y :: l))
        with (match y :: l with
              | true :: _ => true
              | _ => double_start (y :: l)
              end).
      destruct y; [reflexivity|]. exact IH.
    + exact IH.
Qed.

(** What the input keeps true: the ref tells whether the last typing
    signal sent was a start, no two starts were sent in a row, and while a
    start is outstanding the debounce timeout that will send the stop is
    pending. *)
Lemma debounce_invariant (events : list InputEvent) :
  let s := foldl (input_step trim) input_initial events in
  lastTypingSentRef s
    = bool_decide (last (typing_signals (sent s)) = Some true) /\
  double_start (typing_signals (sent s)) = false /\
  (lastTypingSentRef s = true ->
   exists h d, typingDebounceRef s = Some h /\ In (h, d) (debounceTimers s)).
Proof.
  set (P := fun s : InputState =>
    lastTypingSentRef s
      = bool_decide (last (typing_signals (sent s)) = Some true) /\
    double_start (typing_signals (sent s)) = false /\
    (lastTypingSentRef s = true ->
     exists h d, typingDebounceRef s = Some h /\ In (h, d) (debounceTimers s))).
  assert (Hstop : forall s extra,
            double_start (typing_signals (sent s)) = false ->
            typing_signals extra = [false] ->
            bool_decide (last (typing_signals (sent s ++ extra)) = Some true)
              = false /\
            double_start (typing_signals (sent s ++ extra)) = false).
  { intros s extra Hd He. rewrite typing_signals_app, He, last_snoc.
    split; [now apply bool_decide_eq_false_2|].
    rewrite double_start_snoc, Hd. reflexivity. }
  assert (Hstep : forall s e, P s -> P (input_step trim s e)).
  { intros s e (H1 & H2 & H3). destruct e as [now value|conn|r|now]; simpl.
    - unfold handleInputChange, P. simpl. split; [|split].
      + destruct (lastTypingSentRef s) eqn:El.
        * now rewrite app_nil_r, <- H1.
        * rewrite typing_signals_app. simpl. rewrite last_snoc.
          now rewrite bool_decide_eq_true_2.
      + destruct (lastTypingSentRef s) eqn:El.
        * now rewrite app_nil_r.
        * rewrite typing_signals_app. simpl. rewrite double_start_snoc, H2.
          rewrite <- H1. reflexivity.
      + intros _. eexists _, _. split; [reflexivity|].
        apply in_or_app. right. now left.
    - unfold handleSendMessage.
      destruct (JS.truthy_str (trim (inputMessage s)) && conn);
        [|exact (conj H1 (conj H2 H3))].
      unfold P. simpl.
      destruct (Hstop s [SendMessage (trim (inputMessage s)) (m_id <$> replyTo s);
                         SendTyping false] H2 eq_refl) as [Ha Hb].
      rewrite Ha, Hb. repeat split. discriminate.
    - exact (conj H1 (conj H2 H3)).
    - unfold input_run_due.
      set (due := filter (fun t => t.2 <= now) (debounceTimers s)).
      set (pending := filter (fun t => ~ t.2 <= now) (debounceTimers s)).
      set (s0 := {| inputMessage := inputMessage s;
                    lastTypingSentRef := lastTypingSentRef s;
                    typingDebounceRef := typingDebounceRef s;
                    debounceTimers := pending; nextDebounce := nextDebounce s;
                    replyTo := replyTo s; sent := sent s |}).
      assert (Hfold : forall (l : list (positive * Z)) s1,
                lastTypingSentRef s1
                  = bool_decide (last (typing_signals (sent s1)) = Some true) ->
                double_start (typing_signals (sent s1)) = false ->
                let s2 := foldl (fun acc _ => debounceFired acc) s1 l in
                lastTypingSentRef s2
                  = bool_decide (last (typing_signals (sent s2)) = Some true) /\
                double_start (typing_signals (sent s2)) = false /\
                typingDebounceRef s2 = typingDebounceRef s1 /\
                debounceTimers s2 = debounceTimers s1 /\
                (l <> [] -> lastTypingSentRef s2 = false) /\
                (l = [] -> s2 = s1)).
      { induction l as [|x l IH]; intros s1 Ha Hb; simpl.
        - repeat split; try assumption. intros N; now destruct N.
        - destruct (Hstop s1 [SendTyping false] Hb eq_refl) as [Hc Hd].
          destruct (IH (debounceFired s1)) as (I1 & I2 & I3 & I4 & I5 & I6).
          { simpl. now rewrite Hc. }
          { exact Hd. }
          repeat split; try assumption.
          + intros _. destruct l as [|y l]; [|apply I5; discriminate].
            rewrite (I6 eq_refl). reflexivity.
          + discriminate. }
      destruct (Hfold due s0 H1 H2) as (I1 & I2 & I3 & I4 & I5 & I6).
      unfold P. split; [exact I1|]. split; [exact I2|].
      intros Hon. destruct due as [|x l] eqn:Edue.
      + rewrite (I6 eq_refl). simpl. rewrite (I6 eq_refl) in Hon. simpl in Hon.
        destruct (H3 Hon) as (h & d & Hr & Hin). exists h, d.
        split; [exact Hr|]. subst pending.
        apply list_elem_of_In, list_elem_of_filter. split.
        * intros Hle. assert ((h, d) ∈ filter (fun t => t.2 <= now)
                                (debounceTimers s)) as Hd.
          { apply list_elem_of_filter. split; [exact Hle|].
            apply list_elem_of_In, Hin. }
          fold due in Hd. rewrite Edue in Hd. inversion Hd.
        * apply list_elem_of_In, Hin.
      + rewrite I5 in Hon by discriminate. discriminate. }
  assert (Hrun : forall s, P s -> P (foldl (input_step trim) s events)).
  { induction events as [|e events IH]; intros s Hs; [exact Hs|].
    simpl. apply IH, Hstep, Hs. }
  apply Hrun. unfold P. simpl. repeat split. discriminate.
Qed.

(** X7. Whatever the user types, submits or lets time out, the input never
    sends two "typing started" signals in a row, and while the last signal
    sent is a start the debounce timeout that will send the stop is
    pending. *)
Theorem typing_start_never_repeats :
  forall (events : list InputEvent),
    let s := foldl (input_step trim) input_initial events in
    double_start (typing_signals (sent s)) = false /\
    (last (typing_signals (sent s)) = Some true ->
     exists h d, typingDebounceRef s = Some h /\ In (h, d) (debounceTimers s)).
Proof.
  intros events s. destruct (debounce_invariant events) as (H1 & H2 & H3).
  fold s in H1, H2, H3. split; [exact H2|].
  intros Hlast. apply H3. rewrite H1. now apply bool_decide_eq_true_2.
Qed.

End TypingDebounce.

(** ** The typing set never holds the user *)

Section OwnTyping.

Variable Number_ : string -> option Z.
Variable me : Z.

Lemma typingUsers_onMessage_other (now : Z) (st : ChatState)
    (data : WebSocketMessage) :
  typingUsers st !! me = None ->
  typingUsers (onMessage Number_ (Some me) now st data).1 !! me = None.
Proof.
  intros H. unfold onMessage.
  repeat match goal with
         | |- context [if is_type ?d ?s then _ else _] => destruct (is_type d s)
         end; simpl; try exact H.
  - destruct (decide (Some (ws_user_id data) = Some me)) as [E|N]; [exact H|].
    simpl. unfold typing_updater. destruct (ws_is_typing data); simpl.
    + rewrite lookup_insert_ne by congruence. exact H.
    + destruct (decide (ws_user_id data = me)) as [->|N'];
        [apply lookup_delete_eq|now rewrite lookup_delete_ne].
  - unfold read_receipt. destruct (channelId st); [|exact H].
    destruct (viewing Number_ st (ws_channel_id data)); exact H.
  - unfold presence. destruct (channelId st); exact H.
  - destruct (is_type data "new_message" || no_type data); [|exact H].
    unfold new_message. simpl.
    destruct (ws_parent_id data) as [p|]; [destruct (JS.truthy_num p)|]; exact H.
Qed.

(** X8. With a logged-in user, no run of the component ever puts the user's
    own id into the typing set: own typing signals are dropped and no other
    path adds entries. *)
Theorem own_id_never_typing :
  forall (cid : option string) (inputs : list Input),
    typingUsers (run Number_ (Some me) (initial cid) inputs) !! me = None.
Proof.
  intros cid inputs.
  assert (H : forall st, typingUsers st !! me = None ->
                typingUsers (run Number_ (Some me) st inputs) !! me = None).
  { induction inputs as [|i inputs IH]; intros st Hst; [exact Hst|].
    simpl. apply IH. destruct i as [now data|now|k|pages]; simpl.
    - apply typingUsers_onMessage_other, Hst.
    - destruct (typingUsers (run_due now st) !! me) as [e|] eqn:E;
        [|reflexivity].
      unfold run_due in E. apply fires_typingUsers in E as [E _].
      simpl in E. congruence.
    - rewrite (proj1 (switchChannel_typingUsers k st)). exact Hst.
    - exact Hst. }
  apply H. apply lookup_empty.
Qed.

End OwnTyping.

(** ** More on the history merge *)

Section MergeAgain.

Import MessageStore.

Lemma last_with_id_app (k : Z) (a b : list Message) :
  last_with_id k (a ++ b)
  = match last_with_id k b with
    | Some m => Some m
    | None => last_with_id k a
    end.
Proof. unfold last_with_id. rewrite filter_app. apply last_app. Qed.

Lemma filter_none_id (k : Z) (l : list Message) :
  (forall a, In a l -> m_id a = k -> False) ->
  filter (fun m => m_id m = k) l = [].
Proof.
  induction l as [|x l IH]; intros H; [reflexivity|].
  rewrite filter_cons, decide_False.
  - apply IH. intros a Ha. apply H. now right.
  - intros E. apply (H x); [now left|exact E].
Qed.

Lemma last_with_id_NoDup (m : Message) (l : list Message) :
  NoDup (map m_id l) -> In m l -> last_with_id (m_id m) l = Some m.
Proof.
  unfold last_with_id. induction l as [|x l IH]; intros Hn Hin; [destruct Hin|].
  simpl in Hn. apply NoDup_cons in Hn as [Hx Hn]. rewrite filter_cons.
  destruct Hin as [->|Hin].
  - rewrite decide_True by reflexivity.
    rewrite (filter_none_id (m_id m) l); [reflexivity|].
    intros a Ha E. apply Hx. rewrite <- E. apply list_elem_of_In, in_map, Ha.
  - rewrite decide_False.
    + apply IH; assumption.
    + intros E. apply Hx. rewrite E. apply list_elem_of_In, in_map, Hin.
Qed.

Lemma last_with_id_None (k : Z) (l : list Message) :
  last_with_id k l = None <-> ~ In k (map m_id l).
Proof.
  unfold last_with_id. rewrite last_None. split.
  - intros E Hin. apply in_map_iff in Hin as (m & Hm & Hin).
    assert (m ∈ filter (fun m0 => m_id m0 = k) l) as H.
    { apply list_elem_of_filter. split; [exact Hm|apply list_elem_of_In, Hin]. }
    rewrite E in H. inversion H.
  - intros Hnot. apply filter_none_id. intros a Ha E. apply Hnot.
    rewrite <- E. apply in_map, Ha.
Qed.

(** X9. A history merge never replaces a message the state already holds:
    with no duplicate ids in the state, every stored message (with the
    reactions and reply count it has by now) is still in the list after the
    pages are merged in. *)
Theorem history_merge_keeps_state :
  forall (pages : list (list Message)) (prev : list Message) (m : Message),
    NoDup (map m_id prev) ->
    In m prev ->
    In m (mergeHistory pages prev).
Proof.
  intros pages prev m Hn Hin. apply mergeHistory_In.
  rewrite last_with_id_app. now rewrite (last_with_id_NoDup m prev Hn Hin).
Qed.

(** X10. Merging pages whose messages are all in the state already (by id)
    leaves a list that is ascending by id exactly as it is; so running the
    history effect again with the same pages changes nothing. *)
Theorem history_merge_settles :
  forall (pages : list (list Message)) (prev : list Message),
    (ascending_ids prev ->
     (forall k, In k (map m_id (concat pages)) -> In k (map m_id prev)) ->
     mergeHistory pages prev = prev) /\
    mergeHistory pages (mergeHistory pages prev) = mergeHistory pages prev.
Proof.
  assert (Hfix : forall pages prev, ascending_ids prev ->
            (forall k, In k (map m_id (concat pages)) -> In k (map m_id prev)) ->
            mergeHistory pages prev = prev).
  { intros pages prev Hs Hsub. apply (strict_ext m_id).
    - apply mergeHistory_ascending.
    - exact Hs.
    - intros m. rewrite mergeHistory_In, last_with_id_app.
      pose proof (strict_NoDup m_id prev Hs) as Hn. split.
      + destruct (last_with_id (m_id m) prev) as [m'|] eqn:E.
        * intros [= ->]. apply last_with_id_In in E. tauto.
        * intros H. apply last_with_id_In in H as [Hin _]. exfalso.
          apply last_with_id_None in E. apply E, Hsub.
          apply in_map, Hin.
      + intros Hin. now rewrite (last_with_id_NoDup m prev Hn Hin). }
  intros pages prev. split; [apply Hfix|].
  apply Hfix; [apply mergeHistory_ascending|].
  intros k Hk. apply mergeHistory_ids. rewrite map_app. apply in_or_app.
  now left.
Qed.

End MergeAgain.

Lemma history_merge_keeps_state_witness :
  let live := Examples.msg 1 (Some 3) (Some [Examples.thumbs 2]) in
  In live (MessageStore.mergeHistory
             [[Examples.msg 1 (Some 0) (Some []); Examples.msg 2 None None]]
             [live]).
Proof.
  apply history_merge_keeps_state; [|now left].
  apply NoDup_singleton.
Defined.

Lemma history_merge_settles_witness :
  MessageStore.mergeHistory [[Examples.msg 1 None None]]
    [Examples.msg 1 (Some 2) None; Examples.msg 4 None None]
  = [Examples.msg 1 (Some 2) None; Examples.msg 4 None None].
Proof.
  apply (proj1 (history_merge_settles [[Examples.msg 1 None None]]
                  [Examples.msg 1 (Some 2) None; Examples.msg 4 None None])).
  - unfold ascending_ids. repeat constructor; simpl; lia.
  - simpl. intros k [<-|[]]. now left.
Defined.

(** ** Deleting a message *)

(** X11. After a [message_deleted] frame no stored message has the deleted
    id; all other messages stay, in their order; a frame for an id that is
    not stored changes nothing; and a list ascending by id stays
    ascending. *)
Theorem deleted_message_is_gone :
  forall (Number_ : string -> option Z) (self : option Z) (now : Z)
         (st : ChatState) (data : WebSocketMessage),
    ws_type data = Some "message_deleted" ->
    let st' := (onMessage Number_ self now st data).1 in
    let k := ws_message_id data in
    ~ In k (map m_id (messages st')) /\
    (forall m, In m (messages st') <-> In m (messages st) /\ m_id m <> k) /\
    messages st' `sublist_of` messages st /\
    (~ In k (map m_id (messages st)) -> st' = st) /\
    (ascending_ids (messages st) -> ascending_ids (messages st')).
Proof.
  intros Number_ self now st data Hty st' k.
  assert (E : messages st' = filter (fun m => m_id m <> k) (messages st)).
  { subst st'. unfold onMessage, is_type. rewrite Hty.
    repeat (rewrite bool_decide_eq_false_2 by discriminate).
    rewrite bool_decide_eq_true_2 by reflexivity. reflexivity. }
  assert (Hin : forall m, In m (messages st') <-> In m (messages st) /\ m_id m <> k).
  { intros m. rewrite E, <- !list_elem_of_In, list_elem_of_filter. tauto. }
  split; [|split; [exact Hin|split; [|split]]].
  - intros H. apply in_map_iff in H as (m & Hm & H). apply Hin in H. tauto.
  - rewrite E. apply sublist_filter.
  - intros Hnot.
    assert (Hsame : filter (fun m => m_id m <> k) (messages st) = messages st).
    { clear -Hnot. induction (messages st) as [|x l IH]; [reflexivity|].
      rewrite filter_cons, decide_True.
      - f_equal. apply IH. intros H. apply Hnot. now right.
      - intros Hx. apply Hnot. left. exact Hx. }
    subst st'. unfold onMessage, is_type. rewrite Hty.
    repeat (rewrite bool_decide_eq_false_2 by discriminate).
    rewrite bool_decide_eq_true_2 by reflexivity. simpl.
    unfold message_deleted, setMessages. fold k. rewrite Hsame.
    now destruct st.
  - intros Hs. rewrite E. unfold ascending_ids in *.
    clear -Hs. induction (messages st) as [|x l IH]; [constructor|].
    apply StronglySorted_inv in Hs as [Hs Hx]. rewrite filter_cons.
    destruct (decide (m_id x <> k)); [|apply IH, Hs].
    constructor; [apply IH, Hs|].
    apply List.Forall_forall. intros y Hy.
    apply list_elem_of_In, list_elem_of_filter in Hy as [_ Hy].
    rewrite List.Forall_forall in Hx. apply Hx, list_elem_of_In, Hy.
Qed.

Lemma deleted_message_is_gone_witness :
  messages Examples.open1 = [Examples.msg 1 (Some 0) (Some [])] /\
  ~ In 1 (map m_id
            (messages (onMessage Examples.Number_ Examples.me 0
                         Examples.open1 (MoreExamples.deleted_frame 1)).1)).
Proof.
  split; [reflexivity|].
  exact (proj1 (deleted_message_is_gone Examples.Number_ Examples.me 0
                  Examples.open1 (MoreExamples.deleted_frame 1) eq_refl)).
Defined.

(** ** Adding and removing a reaction *)

(** X12. Removing undoes adding: when no message with the id carries the
    pair (user, emoji), [reaction_added] followed by [reaction_removed] for
    that pair leaves every message's reaction list as it was; and after
    [reaction_removed] the message carries the pair not at all, however
    often it was stored. *)
Theorem reaction_remove_undoes_add :
  forall (prev : list Message) (message_id : Z) (reaction : Reaction),
    let u := r_user_id reaction in
    let e := r_emoji reaction in
    (forall m, In m prev -> m_id m = message_id ->
               existsb (Reactions.same_pair u e) (Reactions.reactions_of m) = false) ->
    map Reactions.reactions_of
      (Reactions.reaction_removed message_id u e
         (Reactions.reaction_added message_id reaction prev))
    = map Reactions.reactions_of prev /\
    (forall m, In m (Reactions.reaction_removed message_id u e prev) ->
               m_id m = message_id ->
               count_pair u e (Reactions.reactions_of m) = 0%nat).
Proof.
  intros prev k r u e Hnone. split.
  - unfold Reactions.reaction_removed, Reactions.reaction_added.
    rewrite !map_map. apply map_ext_in. intros m Hin.
    unfold Reactions.remove_from. rewrite add_to_id.
    destruct (decide (m_id m = k)) as [Hk|Hk].
    + change (Reactions.reactions_of (Reactions.with_reactions _ ?rs)) with rs.
      rewrite (reactions_of_add_to k r m Hk). fold u e.
      rewrite (Hnone m Hin Hk), List.filter_app. simpl.
      subst u e. rewrite same_pair_self. simpl. rewrite app_nil_r.
      apply filter_absent, Hnone; assumption.
    + unfold Reactions.add_to. now rewrite decide_False.
  - intros m Hin Hk. unfold Reactions.reaction_removed in Hin.
    apply in_map_iff in Hin as (m0 & <- & _).
    unfold Reactions.remove_from in *.
    destruct (decide (m_id m0 = k)) as [Hk0|Hk0]; [|contradiction].
    change (Reactions.reactions_of (Reactions.with_reactions _ ?rs)) with rs.
    unfold count_pair. clear Hk.
    induction (Reactions.reactions_of m0) as [|x l IH]; [reflexivity|].
    simpl. destruct (Reactions.same_pair u e x) eqn:Ex; simpl; [exact IH|].
    now rewrite Ex.
Qed.

Lemma reaction_remove_undoes_add_witness :
  map Reactions.reactions_of
    (Reactions.reaction_removed 1 1 "+1"
       (Reactions.reaction_added 1 (Examples.thumbs 1) (messages Examples.open1)))
  = [[]].
Proof.
  apply (proj1 (reaction_remove_undoes_add (messages Examples.open1) 1
                  (Examples.thumbs 1)
                  ltac:(intros m [<-|[]] _; reflexivity))).
Defined.

(** * Further properties of the main layout *)

(** ** Channel ids in the path *)

Lemma digit_pretty_char (d : N) :
  (d < 10)%N -> JS.digit (pretty_N_char d) = Some (Z.of_N d).
Proof.
  intros H.
  assert (d = 0 \/ d = 1 \/ d = 2 \/ d = 3 \/ d = 4 \/ d = 5 \/ d = 6 \/ d = 7
          \/ d = 8 \/ d = 9)%N as Hd by lia.
  repeat (destruct Hd as [->|Hd]; [reflexivity|]). subst d. reflexivity.
Qed.

(** Reading the decimal numeral of [x] in front of [s]. *)
Lemma digits_val_pretty_go (x : N) :
  exists p, 0 < p /\
    forall s acc, JS.digits_val (pretty_N_go x s) acc
                  = JS.digits_val s (acc * p + Z.of_N x).
Proof.
  induction x as [x IH] using (well_founded_induction N.lt_wf_0).
  destruct (decide (0 < x)%N) as [Hpos|Hzero].
  - destruct (IH (x `div` 10)%N) as (p & Hp & Hval).
    { apply N.div_lt; lia. }
    exists (10 * p). split; [lia|]. intros s acc.
    rewrite pretty_N_go_step by exact Hpos. rewrite Hval. simpl.
    rewrite digit_pretty_char by (apply N.mod_lt; lia).
    f_equal. pose proof (N.div_mod x 10 ltac:(lia)) as Hdm.
    assert (Z.of_N x = 10 * Z.of_N (x `div` 10) + Z.of_N (x `mod` 10)) by lia.
    lia.
  - assert (x = 0%N) as -> by lia. exists 1. split; [lia|]. intros s acc.
    rewrite pretty_N_go_0. f_equal. lia.
Qed.

Lemma take_digits_pretty_go (x : N) (s : string) :
  Layout.take_digits (pretty_N_go x s) = pretty_N_go x (Layout.take_digits s).
Proof.
  revert s. induction x as [x IH] using (well_founded_induction N.lt_wf_0).
  intros s. destruct (decide (0 < x)%N) as [Hpos|Hzero].
  - rewrite (pretty_N_go_step x s Hpos).
    rewrite (pretty_N_go_step x (Layout.take_digits s) Hpos).
    rewrite IH by (apply N.div_lt; lia). simpl.
    rewrite digit_pretty_char by (apply N.mod_lt; lia).
    rewrite decide_True by eauto. reflexivity.
  - assert (x = 0%N) as -> by lia. now rewrite !pretty_N_go_0.
Qed.

(** [Number(String(n))] and the digits pattern on [String(n)], for a
    non-negative integer. *)
Lemma decimal_pretty (n : Z) :
  0 <= n ->
  JS.decimal (pretty n) = Some n /\
  Layout.take_digits (pretty n) = pretty n /\
  pretty n <> "".
Proof.
  intros Hn. destruct n as [|q|q]; [repeat split; discriminate| |lia].
  change (pretty (Z.pos q)) with (pretty_N_go (N.pos q) "").
  destruct (digits_val_pretty_go (N.pos q)) as (p & Hp & Hval).
  specialize (Hval "" 0). simpl in Hval.
  assert (Hne : pretty_N_go (N.pos q) "" <> "").
  { intros E. rewrite E in Hval. discriminate Hval. }
  split; [|split; [|exact Hne]].
  - unfold JS.decimal. destruct (pretty_N_go (N.pos q) "") eqn:E;
      [contradiction|]. exact Hval.
  - now rewrite take_digits_pretty_go.
Qed.

Lemma match_chat_path (n : Z) :
  0 <= n ->
  Layout.match_chat (String.append "/chat/" (pretty n)) = Some (pretty n).
Proof.
  intros Hn. destruct (decimal_pretty n Hn) as (_ & Htake & Hne).
  assert (Hhere : Layout.chat_here (String.append "/chat/" (pretty n))
                  = Some (pretty n)).
  { unfold Layout.chat_here. rewrite drop_prefix_append, Htake.
    destruct (pretty n); [contradiction|reflexivity]. }
  change (String.append "/chat/" (pretty n))
    with (String "/" (String.append "chat/" (pretty n))) in *.
  simpl. simpl in Hhere. now rewrite Hhere.
Qed.

(** X13. The path a mention toast navigates to, [/chat/<id>], is read
    back as that channel: the layout takes the channel for open, and for a
    positive id it then routes a message for the channel to nothing at all
    (no unread increment, sound, toast or notification). *)
Theorem toast_target_is_recognised :
  forall (mentioned_by : string -> string) (user : option Layout.AuthUser)
         (channels : option (list Channel)) (now : Z)
         (msgData : Layout.MessageReceived),
    let c := Layout.channel_id msgData in
    let path := String.append "/chat/" (pretty c) in
    0 < c ->
    Layout.currentChannelIdNum path = Some c /\
    viewing_channel path c = true /\
    Layout.onMessageReceived mentioned_by user channels path now msgData = [].
Proof.
  intros mentioned_by user channels now msgData c path Hc.
  assert (Hnum : Layout.currentChannelIdNum path = Some c).
  { unfold Layout.currentChannelIdNum. subst path.
    rewrite match_chat_path by lia. apply decimal_pretty. lia. }
  assert (Hview : viewing_channel path c = true).
  { unfold viewing_channel. rewrite Hnum. unfold JS.truthy_num.
    destruct (Z.eqb_spec c 0); [lia|]. simpl.
    now apply bool_decide_eq_true_2. }
  split; [exact Hnum|]. split; [exact Hview|].
  apply route_viewing. exact Hview.
Qed.

Lemma toast_target_is_recognised_witness :
  Layout.onMessageReceived Examples.mentioned_by
    (Examples.prefs (Some true) (Some true)) None "/chat/12" 0
    (Examples.received 12 (Some true) None None) = [].
Proof.
  apply (toast_target_is_recognised Examples.mentioned_by
           (Examples.prefs (Some true) (Some true)) None 0
           (Examples.received 12 (Some true) None None)).
  simpl. lia.
Defined.

Lemma take_digits_decimal (s : string) :
  Layout.take_digits s <> "" ->
  forall acc, 0 <= acc ->
    exists n, JS.digits_val (Layout.take_digits s) acc = Some n /\ 0 <= n.
Proof.
  induction s as [|c s IH]; [intros H; now destruct H|].
  intros _ acc Hacc. simpl.
  destruct (decide (is_Some (JS.digit c))) as [[d Hd]|Hno].
  - simpl. rewrite Hd.
    assert (0 <= d).
    { unfold JS.digit in Hd. case_decide; [|discriminate].
      injection Hd as <-. lia. }
    destruct (Layout.take_digits s) eqn:E.
    + simpl. exists (10 * acc + d). split; [reflexivity|lia].
    + apply IH; [discriminate|lia].
  - simpl. exists acc. split; [reflexivity|exact Hacc].
Qed.

Lemma match_chat_digits (s ds : string) :
  Layout.match_chat s = Some ds ->
  exists n, JS.decimal ds = Some n /\ 0 <= n.
Proof.
  induction s as [|c s IH]; simpl.
  - unfold Layout.chat_here. simpl. discriminate.
  - destruct (Layout.chat_here (String c s)) as [ds'|] eqn:E.
    + intros [= <-]. unfold Layout.chat_here in E.
      destruct (Layout.drop_prefix "/chat/" (String c s)) as [rest|];
        [|discriminate].
      destruct (Layout.take_digits rest) as [|a r] eqn:Et; [discriminate|].
      injection E as <-. rewrite <- Et.
      destruct (take_digits_decimal rest ltac:(rewrite Et; discriminate) 0
                  ltac:(lia)) as (n & Hn & H0).
      exists n. split; [|exact H0]. unfold JS.decimal. rewrite Et in *. exact Hn.
    + exact IH.
Qed.

(** X14. For a path whose channel id is a safe integer (below 2^53,
    where [Number] and [parseInt] read the digits exactly): whenever the
    path matches the chat pattern the captured digits read as a non-negative
    integer, never as [NaN]; and the two ways the layout decides "this
    channel is open" agree for every channel id but 0.  On a path that
    names channel 0 the message router does not take channel 0 for open,
    the channel-deleted and document handlers do. *)
Theorem open_channel_tests_agree :
  forall (pathname : string) (c : Z),
    safe_path pathname = true ->
    (Layout.currentChannelIdNum pathname = None <->
     Layout.match_chat pathname = None) /\
    (forall n, Layout.currentChannelIdNum pathname = Some n -> 0 <= n < 2 ^ 53) /\
    (viewing_channel pathname c = true ->
     Events.isViewing pathname (Some c) = true) /\
    (c <> 0 -> Events.isViewing pathname (Some c) = viewing_channel pathname c) /\
    (Layout.currentChannelIdNum pathname = Some 0 ->
     viewing_channel pathname 0 = false /\
     Events.isViewing pathname (Some 0) = true) /\
    viewing_channel pathname 0 = false.
Proof.
  intros pathname c Hsafe. revert Hsafe.
  unfold safe_path, Layout.currentChannelIdNum, viewing_channel,
    Events.isViewing, Layout.currentChannelIdNum.
  destruct (Layout.match_chat pathname) as [ds|] eqn:E.
  - destruct (match_chat_digits pathname ds E) as (n & Hn & H0). rewrite Hn.
    intros Hsafe. apply bool_decide_eq_true in Hsafe.
    split; [split; discriminate|].
    split; [intros m [= <-]; split; [exact H0|exact Hsafe]|].
    assert (Hagree : c <> 0 ->
              bool_decide (Some n = Some c)
              = JS.truthy_num n && bool_decide (n = c)).
    { intros Hc. unfold JS.truthy_num.
      destruct (decide (n = c)) as [->|N].
      - rewrite !bool_decide_eq_true_2 by reflexivity.
        destruct (Z.eqb_spec c 0); [contradiction|reflexivity].
      - rewrite !bool_decide_eq_false_2 by congruence.
        now rewrite andb_false_r. }
    assert (Hzero : JS.truthy_num n && bool_decide (n = 0) = false).
    { unfold JS.truthy_num. destruct (Z.eqb_spec n 0) as [->|N]; [reflexivity|].
      simpl. now apply bool_decide_eq_false_2. }
    split; [|split; [exact Hagree|split; [|exact Hzero]]].
    + intros H. apply andb_true_iff in H as [_ H].
      apply bool_decide_eq_true in H. subst. now apply bool_decide_eq_true_2.
    + intros [= ->]. split; [reflexivity|]. now apply bool_decide_eq_true_2.
  - intros _. repeat split; try reflexivity; try discriminate.
Qed.

Lemma open_channel_tests_agree_witness :
  safe_path "/chat/0" = true /\
  viewing_channel "/chat/0" 0 = false /\
  Events.isViewing "/chat/0" (Some 0) = true.
Proof.
  split; [reflexivity|].
  apply (open_channel_tests_agree "/chat/0" 0); reflexivity.
Defined.

(** ** Deleted channels and shared documents *)

Section LayoutEvents.

Import Events.

Variable t : string -> list (string * string) -> string.
Variable apiUrl : string.
Variable user : option Layout.AuthUser.
Variable pathname : string.

(** X15. Whoever deleted the channel and whatever the preferences, a
    [channel_deleted] event clears the unread counter of that channel (and
    of no other) and shows exactly one toast; it sends the user to ["/"]
    exactly when the deleted channel is the open one; and it asks for an OS
    notification exactly when [notify_browser] is switched on, so not for a
    user who never set the preference. *)
Theorem deleted_channel_is_cleared :
  forall (data : ChannelDeleted),
    let notices := onChannelDeleted t user pathname data in
    let k := cd_channel_id data in
    (forall c, In (ClearUnread c) notices <-> c = k) /\
    length (List.filter is_notice_toast notices) = 1%nat /\
    (forall p, In (Navigate p) notices <->
               p = "/" /\ isViewing pathname (Some k) = true) /\
    (existsb is_notice_system notices = true <->
     (user ≫= Layout.notify_browser) = Some true) /\
    existsb is_doc_unread notices = false.
Proof.
  intros data notices k. subst notices. unfold onChannelDeleted, browser_on.
  fold k.
  destruct (isViewing pathname (Some k));
    destruct (user ≫= Layout.notify_browser) as [[|]|]; simpl;
    (split; [intros c; split;
               [intros H; repeat (destruct H as [H|H]; try discriminate H);
                  [now injection H|destruct H]
               |intros ->; tauto] |]);
    (split; [reflexivity|]);
    (split; [intros p; split;
               [intros H; repeat (destruct H as [H|H]; try discriminate H);
                  try (injection H as <-; tauto); try destruct H
               |intros [-> Hv]; try discriminate Hv; tauto] |]);
    (split; [split; intros H; try discriminate H; reflexivity|reflexivity]).
Qed.

(** X16. A shared document always shows its toast, also to a user who is
    looking at the channel or at the board; it is counted as an unread
    document exactly when the user is neither on the board nor in the
    channel it was shared in; and an OS notification is requested unless
    [notify_browser] is switched off.  The unread message counters are not
    touched. *)
Theorem shared_document_is_announced :
  forall (data : DocumentShared),
    let notices := onDocumentShared t apiUrl user pathname data in
    length (List.filter is_notice_toast notices) = 1%nat /\
    (forall d c, In (AddDocUnread d c) notices <->
       d = ds_document_id data /\ c = ds_channel_id data /\
       pathname <> "/board" /\ isViewing pathname (ds_channel_id data) = false) /\
    (existsb is_notice_system notices = true <->
     (user ≫= Layout.notify_browser) <> Some false) /\
    (forall c, ~ In (ClearUnread c) notices).
Proof.
  intros data notices. subst notices. unfold onDocumentShared.
  set (body := t "common.document_shared_by" _).
  set (toast := Toast "success" _ body 10000 _).
  set (counted := negb (bool_decide (pathname = "/board"))
                  && negb (isViewing pathname (ds_channel_id data))).
  assert (Hcounted : counted = true <->
            pathname <> "/board" /\ isViewing pathname (ds_channel_id data) = false).
  { subst counted. rewrite andb_true_iff, !negb_true_iff.
    rewrite bool_decide_eq_false. tauto. }
  set (notify := negb (bool_decide ((user ≫= Layout.notify_browser) = Some false))).
  assert (Hnotify : notify = true <-> (user ≫= Layout.notify_browser) <> Some false).
  { subst notify. rewrite negb_true_iff, bool_decide_eq_false. tauto. }
  subst toast.
  split; [|split; [|split]].
  - destruct counted, notify; reflexivity.
  - intros d c. split.
    + intros H. destruct counted eqn:Ec.
      * pose proof (proj1 Hcounted eq_refl) as Hc.
        destruct notify; simpl in H; in_cases;
          try discriminate H; injection H as <- <-; tauto.
      * destruct notify; simpl in H; in_cases; discriminate H.
    + intros (-> & -> & Hc). apply Hcounted in Hc. rewrite Hc.
      simpl. right. right. now left.
  - rewrite <- Hnotify. destruct notify, counted; simpl; split; intros H;
      try reflexivity; try discriminate H.
  - intros c H. destruct counted, notify; simpl in H; in_cases; discriminate H.
Qed.

End LayoutEvents.

(** ** Presence *)

Section LayoutPresence.

Import Events.



Lemma with_online_count_same (c : Channel) :
  with_online_count c (c_online_count c) = c.
Proof. now destruct c. Qed.


End LayoutPresence.


(** ** Connection status toasts *)

Section StatusToasts.

Import Events.

Variable t : string -> list (string * string) -> string.

Lemma status_refs_follow (s0 : Status) (renders : list (bool * bool)) :
  wasOfflineRef s0 = isOffline s0 ->
  wasConnectedRef s0 = isConnected s0 ->
  wasOfflineRef (status_steps t s0 renders) = isOffline (status_steps t s0 renders) /\
  wasConnectedRef (status_steps t s0 renders)
  = isConnected (status_steps t s0 renders).
Proof.
  revert s0. induction renders as [|[o c] rs IH]; intros s0 H1 H2;
    [now split|].
  simpl. apply IH; unfold status_render; simpl.
  - rewrite H1. destruct o, (isOffline s0); reflexivity.
  - rewrite H2. destruct o, c, (isOffline s0), (isConnected s0); reflexivity.
Qed.

(** X18. After any sequence of renders the two refs hold the status of the
    last render, so the toasts of the next render are those of the two
    effects run on the previous and the new status, whichever dependency
    changed.  Hence a render with the same status shows no toast; a render
    shows at most two; a render in which the browser is offline shows the
    "offline" toast when it was online before and nothing else, whatever
    the socket does; and a socket change missed while offline is never
    reported later: coming back online with the socket unchanged shows only
    the "online" toast. *)
Theorem status_toasts_follow_changes :
  forall (offline connected : bool) (renders : list (bool * bool)),
    let s := status_steps t (status_mount offline connected) renders in
    (wasOfflineRef s = isOffline s /\ wasConnectedRef s = isConnected s) /\
    (forall o c,
        (status_render t o c s).2
        = offlineEffect t o (isOffline s)
          ++ connectionEffect t o c (isConnected s)) /\
    (status_render t (isOffline s) (isConnected s) s).2 = [] /\
    (forall o c, le (length (status_render t o c s).2) 2) /\
    (forall c,
        (status_render t true c s).2
        = if isOffline s then [] else offlineEffect t true false) /\
    (forall c,
        (status_render t false c (status_render t true c s).1).2
        = offlineEffect t false true).
Proof.
  intros offline connected renders s.
  destruct (status_refs_follow (status_mount offline connected) renders
              eq_refl eq_refl) as [H1 H2].
  fold s in H1, H2.
  split; [now split|].
  assert (Hgen : forall s, wasOfflineRef s = isOffline s ->
                   wasConnectedRef s = isConnected s ->
                   forall o c,
                     (status_render t o c s).2
                     = offlineEffect t o (isOffline s)
                       ++ connectionEffect t o c (isConnected s)).
  { clear. intros s H1 H2 o c. unfold status_render. simpl. rewrite H1, H2.
    destruct o, c, (isOffline s), (isConnected s); reflexivity. }
  split; [exact (Hgen s H1 H2)|].
  split; [rewrite Hgen by assumption;
          destruct (isOffline s), (isConnected s); reflexivity|].
  split; [intros o c; rewrite Hgen by assumption;
          destruct o, c, (isOffline s), (isConnected s); simpl; lia|].
  split; [intros c; rewrite Hgen by assumption;
          destruct c, (isOffline s), (isConnected s); reflexivity|].
  intros c. rewrite Hgen.
  - simpl. destruct c; reflexivity.
  - unfold status_render. simpl. rewrite H1. now destruct (isOffline s).
  - unfold status_render. simpl. rewrite H2.
    destruct c, (isOffline s), (isConnected s); reflexivity.
Qed.

End StatusToasts.

(** * Frames without a type *)

Section UntypedFrames.

Variable Number_ : string -> option Z.
Variable self : option Z.

(** X19. A frame whose [type] is absent or the empty string is handled
    exactly as the same frame with the type ["new_message"]: same state,
    same effects; so afterwards a message with the frame's id is stored. *)
Theorem untyped_frame_is_new_message :
  forall (now : Z) (st : ChatState) (data : WebSocketMessage),
    no_type data = true ->
    onMessage Number_ self now st data
      = onMessage Number_ self now st (typed_new_message data) /\
    onMessage Number_ self now st data = new_message Number_ self data st /\
    has_id (ws_id data) (messages (onMessage Number_ self now st data).1) = true.
Proof.
  intros now st data Hno.
  assert (E : onMessage Number_ self now st data
              = new_message Number_ self data st).
  { unfold onMessage.
    rewrite !(no_type_is_type data) by (assumption || discriminate).
    now rewrite Hno. }
  split; [|split; [exact E|]].
  - rewrite E. reflexivity.
  - rewrite E. unfold new_message. simpl.
    apply (has_id_append_new (as_message data)).
Qed.

End UntypedFrames.

Lemma untyped_frame_is_new_message_witness :
  let data := Examples.message_frame None 9 1 3 None in
  no_type data = true /\
  map m_id
    (messages (onMessage Examples.Number_ Examples.me 0 Examples.open1 data).1)
  = [1; 9] /\
  onMessage Examples.Number_ Examples.me 0 Examples.open1 data
  = onMessage Examples.Number_ Examples.me 0 Examples.open1
      (typed_new_message data).
Proof.
  split; [reflexivity|]. split; [reflexivity|].
  apply (untyped_frame_is_new_message Examples.Number_ Examples.me 0
           Examples.open1 (Examples.message_frame None 9 1 3 None)).
  reflexivity.
Defined.
